(** * revup: the directive execution engine of [revup.py]

    A shallow embedding of [src/revup.py] and the properties of its
    directive interpreter, variable substitution, address extraction,
    manifest templating and binding writer.

    Conventions of the embedding.
    - A Python [str] is a [string]; a character is a code point of the
      Latin-1 range, held in an [ascii].  Text outside that range is not
      covered.
    - A Python [bytes] value is a [string] too (one [ascii] per byte); the
      two are kept apart by the constructors of [pyline] where the source
      handles both.
    - The ordered [dict] that holds the bindings is an association list
      with unique keys, in insertion order.
    - The file system, the log and the spawned processes are explicit
      state, threaded by a state-and-exception monad.  A file holds its
      characters as they are on disk; reading it in text mode goes
      through the newline translation of [Str.universal_newlines], and
      writing leaves LF as it is, as on a POSIX system. *)

From Stdlib Require Import ZArith Ascii String List Bool Lia.
From stdpp Require Import base tactics option list gmap strings.

(* Let [simpl] compute string concatenation again. *)
#[local] Arguments String.append !s1 s2 : simpl nomatch.

Local Open Scope string_scope.
Local Open Scope list_scope.
Local Open Scope Z_scope.

(** ** Characters *)

Module Char.

Definition code (c : ascii) : N := N_of_ascii c.

Definition LF : ascii := "010"%char.
Definition CR : ascii := "013"%char.
Definition TAB : ascii := "009"%char.
Definition DQUOTE : ascii := "034"%char.
Definition SQUOTE : ascii := "039"%char.
Definition BACKSLASH : ascii := "092"%char.
Definition DOLLAR : ascii := "036"%char.

Definition eqb (a b : ascii) : bool := Ascii.eqb a b.

Definition in_range (lo hi : N) (c : ascii) : bool :=
  (N.leb lo (code c) && N.leb (code c) hi)%bool.

(** [str.isspace] on Latin-1: the characters [str.strip()] removes. *)
Definition is_space (c : ascii) : bool :=
  (in_range 9 13 c || in_range 28 32 c
   || N.eqb (code c) 133 || N.eqb (code c) 160)%bool.

Definition is_digit (c : ascii) : bool := in_range 48 57 c.
Definition is_upper (c : ascii) : bool := in_range 65 90 c.
Definition is_lower (c : ascii) : bool := in_range 97 122 c.

(** The class [[0-9a-fA-F]]. *)
Definition is_hex (c : ascii) : bool :=
  (is_digit c || in_range 97 102 c || in_range 65 70 c)%bool.

(** [\w] of a [str] pattern on Latin-1: [isalnum] or underscore. *)
Definition is_word (c : ascii) : bool :=
  (is_digit c || is_upper c || is_lower c || N.eqb (code c) 95
   || N.eqb (code c) 170 || N.eqb (code c) 178 || N.eqb (code c) 179
   || N.eqb (code c) 181 || in_range 185 186 c || in_range 188 190 c
   || in_range 192 214 c || in_range 216 246 c || in_range 248 255 c)%bool.

(** Case folding as [re.IGNORECASE] needs it against an ASCII pattern
    character: no Latin-1 character other than A-Z folds to a-z. *)
Definition lower (c : ascii) : ascii :=
  if is_upper c then ascii_of_N (code c + 32) else c.

Definition eqb_ci (a b : ascii) : bool := eqb (lower a) (lower b).

Definition hex_digit (n : N) : ascii :=
  if N.ltb n 10 then ascii_of_N (48 + n) else ascii_of_N (87 + n).

End Char.

(** ** Python string primitives *)

Module Str.

Definition is_empty (s : string) : bool :=
  match s with EmptyString => true | String _ _ => false end.

Definition snoc (s : string) (c : ascii) : string := s +:+ String c "".

(** [s.startswith(p)] *)
Fixpoint startswith (s p : string) {struct p} : bool :=
  match p with
  | EmptyString => true
  | String b p' =>
      match s with
      | EmptyString => false
      | String a s' => (Char.eqb a b && startswith s' p')%bool
      end
  end.

(** The lowest index at which [sub] occurs in [s]. *)
Fixpoint index_of (s sub : string) : option nat :=
  if startswith s sub then Some O
  else match s with
       | EmptyString => None
       | String _ s' => option_map S (index_of s' sub)
       end.

(** [s.find(sub)]: that index, or [-1]. *)
Definition find (s sub : string) : Z :=
  match index_of s sub with
  | Some i => Z.of_nat i
  | None => -1
  end.

(** [s.replace(old, new)] for a non-empty [old]: scan from the left,
    and after a replacement skip the characters of the occurrence.
    [skip] counts the characters of the current occurrence still to be
    dropped. *)
Fixpoint replace_from (skip : nat) (s old new : string) : string :=
  match s with
  | EmptyString => EmptyString
  | String c s' =>
      match skip with
      | S k => replace_from k s' old new
      | O =>
          if startswith s old
          then new +:+ replace_from (Nat.pred (String.length old)) s' old new
          else String c (replace_from O s' old new)
      end
  end.

(** With an empty [old] Python inserts [new] before every character and
    at the end. *)
Fixpoint intersperse (s new : string) : string :=
  match s with
  | EmptyString => new
  | String c s' => new +:+ String c (intersperse s' new)
  end.

Definition replace (s old new : string) : string :=
  if is_empty old then intersperse s new else replace_from O s old new.

(** [s.split(sep)] for a non-empty [sep]: every occurrence found by the
    same left-to-right scan ends a field; [cur] is the field being
    read. *)
Fixpoint split_from (skip : nat) (cur s sep : string) : list string :=
  match s with
  | EmptyString => [cur]
  | String c s' =>
      match skip with
      | S k => split_from k cur s' sep
      | O =>
          if startswith s sep
          then cur :: split_from (Nat.pred (String.length sep)) "" s' sep
          else split_from O (snoc cur c) s' sep
      end
  end.

Definition split (s sep : string) : list string := split_from O "" s sep.

(** [s.strip()] *)
Fixpoint lstrip (s : string) : string :=
  match s with
  | EmptyString => EmptyString
  | String c s' => if Char.is_space c then lstrip s' else s
  end.

Fixpoint rstrip (s : string) : string :=
  match s with
  | EmptyString => EmptyString
  | String c s' =>
      let r := rstrip s' in
      if (is_empty r && Char.is_space c)%bool then EmptyString
      else String c r
  end.

Definition strip (s : string) : string := rstrip (lstrip s).

(** Universal newlines: what the text layer of [open(path, 'r')] does
    to the characters of a file before any line is cut: CR LF and a lone
    CR both arrive as LF.  [after_cr] tells that the character before was
    a CR. *)
Fixpoint universal_newlines_from (after_cr : bool) (s : string) : string :=
  match s with
  | EmptyString => EmptyString
  | String c s' =>
      if Char.eqb c Char.CR
      then String Char.LF (universal_newlines_from true s')
      else if Char.eqb c Char.LF
      then (if after_cr then universal_newlines_from false s'
            else String Char.LF (universal_newlines_from false s'))
      else String c (universal_newlines_from false s')
  end.

Definition universal_newlines (s : string) : string :=
  universal_newlines_from false s.

(** [readlines()] on text whose newlines are translated already: a line
    ends after each LF and keeps it. *)
Fixpoint readlines_from (cur s : string) : list string :=
  match s with
  | EmptyString => if is_empty cur then [] else [cur]
  | String c s' =>
      if Char.eqb c Char.LF
      then snoc cur c :: readlines_from "" s'
      else readlines_from (snoc cur c) s'
  end.

Definition readlines (s : string) : list string := readlines_from "" s.

(** [open(path, 'r').readlines()] of a file that holds [content]: the
    newlines are translated, then the lines are cut. *)
Definition text_lines (content : string) : list string :=
  readlines (universal_newlines content).

(** [b.splitlines()] of a [bytes] value: lines end at LF, CR or CR LF
    and lose their ending. *)
Fixpoint splitlines_from (after_cr : bool) (cur s : string) : list string :=
  match s with
  | EmptyString => if is_empty cur then [] else [cur]
  | String c s' =>
      if Char.eqb c Char.LF then
        if after_cr then splitlines_from false "" s'
        else cur :: splitlines_from false "" s'
      else if Char.eqb c Char.CR then cur :: splitlines_from true "" s'
      else splitlines_from false (snoc cur c) s'
  end.

Definition splitlines (s : string) : list string :=
  splitlines_from false "" s.

Definition concat (l : list string) : string :=
  fold_right String.append "" l.

End Str.

(** ** The ordered dictionary of bindings *)

Module Dict.

(** A Python [dict] with [str] keys and values, as the list of its
    items in iteration order. *)
Definition t : Type := list (string * string).

Definition empty : t := [].

Definition keys (d : t) : list string := map fst d.

(** [d.get(k)] *)
Fixpoint get (d : t) (k : string) : option string :=
  match d with
  | [] => None
  | (k', v') :: d' => if String.eqb k' k then Some v' else get d' k
  end.

(** [d[k] = v]: an existing key keeps its place, a new key goes last. *)
Fixpoint set (d : t) (k v : string) : t :=
  match d with
  | [] => [(k, v)]
  | (k', v') :: d' =>
      if String.eqb k' k then (k', v) :: d' else (k', v') :: set d' k v
  end.

(** [d.update(u)] *)
Definition update (d u : t) : t :=
  fold_left (fun acc kv => set acc (fst kv) (snd kv)) u d.

(** The binding written last for [k] in a list of assignments. *)
Fixpoint last_assigned (u : list (string * string)) (k : string)
  : option string :=
  match u with
  | [] => None
  | (k', v') :: u' =>
      match last_assigned u' k with
      | Some v => Some v
      | None => if String.eqb k' k then Some v' else None
      end
  end.

End Dict.

(** ** Exceptions and Python values of mixed type *)

Inductive exn : Type :=
| CalledProcessError (returncode : Z) (stderr : string)
| OSError (msg : string)
| ValueError (msg : string)
| IndexError
| KeyError.

Inductive result (A : Type) : Type :=
| Ok (a : A)
| Raise (e : exn).
Arguments Ok {A} a.
Arguments Raise {A} e.

(** What [ResimExecutor.execute] returns: the list of extracted addresses,
    or the empty [dict] of its last line. *)
Inductive addr_result : Type :=
| AddrList (l : list string)
| EmptyMapping.

(** [len(addresses)] *)
Definition py_len (a : addr_result) : nat :=
  match a with
  | AddrList l => List.length l
  | EmptyMapping => O
  end.

(** [addresses[idx]] *)
Definition subscript (a : addr_result) (idx : nat) : result string :=
  match a with
  | AddrList l =>
      match nth_error l idx with
      | Some x => Ok x
      | None => Raise IndexError
      end
  | EmptyMapping => Raise KeyError
  end.


(** An element of [cmd_output]: the source applies [str] to it, which is
    the identity on [str] and the [repr] on [bytes]. *)
Inductive pyline : Type :=
| Text (s : string)
| Bytes (b : string).

Module Repr.

Fixpoint contains (b : string) (c : ascii) : bool :=
  match b with
  | EmptyString => false
  | String a b' => (Char.eqb a c || contains b' c)%bool
  end.

Definition quote_of (b : string) : ascii :=
  if (contains b Char.SQUOTE && negb (contains b Char.DQUOTE))%bool
  then Char.DQUOTE else Char.SQUOTE.

Definition escape_byte (q c : ascii) : string :=
  if (Char.eqb c q || Char.eqb c Char.BACKSLASH)%bool
  then String Char.BACKSLASH (String c "")
  else if Char.eqb c Char.TAB then String Char.BACKSLASH "t"
  else if Char.eqb c Char.LF then String Char.BACKSLASH "n"
  else if Char.eqb c Char.CR then String Char.BACKSLASH "r"
  else if (N.ltb (Char.code c) 32 || N.leb 127 (Char.code c))%bool
  then String Char.BACKSLASH
         (String "x"%char
            (String (Char.hex_digit (N.div (Char.code c) 16))
               (String (Char.hex_digit (N.modulo (Char.code c) 16)) "")))
  else String c "".

Fixpoint escape (q : ascii) (b : string) : string :=
  match b with
  | EmptyString => EmptyString
  | String c b' => escape_byte q c +:+ escape q b'
  end.

(** [repr(b)] of a [bytes] value, which is also what [str(b)] and an
    f-string give. *)
Definition bytes_repr (b : string) : string :=
  let q := quote_of b in
  String "b"%char (String q (escape q b +:+ String q "")).

End Repr.

Definition py_str (line : pyline) : string :=
  match line with
  | Text s => s
  | Bytes b => Repr.bytes_repr b
  end.

(** ** The regular expressions of the source *)

Module Re.

(** A literal matched under [re.IGNORECASE] at the start of [s]: the
    text that follows it. *)
Fixpoint match_literal_ci (lit s : string) {struct lit}
  : option string :=
  match lit with
  | EmptyString => Some s
  | String b lit' =>
      match s with
      | EmptyString => None
      | String a s' =>
          if Char.eqb_ci a b then match_literal_ci lit' s' else None
      end
  end.

(** The longest run of [[0-9a-fA-F]] at the start of [s]. *)
Fixpoint take_hex (s : string) : string :=
  match s with
  | EmptyString => EmptyString
  | String c s' => if Char.is_hex c then String c (take_hex s') else ""
  end.

(** [LABEL([0-9a-fA-F]+)] anchored at the start of [s]: group 1. *)
Definition match_hex_after (label s : string) : option string :=
  match match_literal_ci label s with
  | Some rest =>
      let g := take_hex rest in
      if Str.is_empty g then None else Some g
  | None => None
  end.

(** [re.search] of such a pattern: the leftmost position where it
    matches; the group is greedy. *)
Fixpoint search_hex_after (label s : string) : option string :=
  match match_hex_after label s with
  | Some g => Some g
  | None =>
      match s with
      | EmptyString => None
      | String _ s' => search_hex_after label s'
      end
  end.

(** [\w+\.rtm] anchored at the start of [t]; [acc] is the run of word
    characters read so far.  A dot is no word character, so the run
    that matches is the longest one.  [ci] is the IGNORECASE flag. *)
Definition ext_rtm (ci : bool) (t : string) : option string :=
  match t with
  | String c0 (String c1 (String c2 (String c3 _))) =>
      let eq := if ci then Char.eqb_ci else Char.eqb in
      if (Char.eqb c0 "."%char && eq c1 "r"%char && eq c2 "t"%char
          && eq c3 "m"%char)%bool
      then Some (String c0 (String c1 (String c2 (String c3 ""))))
      else None
  | _ => None
  end.

Fixpoint match_word_rtm (ci : bool) (acc t : string) : option string :=
  match t with
  | EmptyString => None
  | String c t' =>
      if Char.is_word c then match_word_rtm ci (Str.snoc acc c) t'
      else if Str.is_empty acc then None
      else match ext_rtm ci t with
           | Some e => Some (acc +:+ e)
           | None => None
           end
  end.

(** [re.search(re.compile(r"(\w+\.rtm)", re.IGNORECASE), s)]: group 1
    of the leftmost match. *)
Fixpoint search_word_rtm (ci : bool) (s : string) : option string :=
  match match_word_rtm ci "" s with
  | Some g => Some g
  | None =>
      match s with
      | EmptyString => None
      | String _ s' => search_word_rtm ci s'
      end
  end.

(** [.+(\w+\.rtm)] anchored at the start of [r]: some non-empty prefix
    without a newline is followed by a match of [\w+\.rtm].
    [consumed] tells whether [.+] has taken a character yet. *)
Fixpoint match_any_then_word_rtm (consumed : bool) (r : string) : bool :=
  match r with
  | EmptyString => false
  | String c r' =>
      ((consumed && bool_decide (is_Some (match_word_rtm false "" r)))
       || (negb (Char.eqb c Char.LF) && match_any_then_word_rtm true r'))%bool
  end.

(** The text after the literal [p] when [s] starts with it. *)
Fixpoint strip_prefix (p s : string) {struct p} : option string :=
  match p with
  | EmptyString => Some s
  | String b p' =>
      match s with
      | EmptyString => None
      | String a s' => if Char.eqb a b then strip_prefix p' s' else None
      end
  end.

(** [re.search(r"run .+(\w+\.rtm)", s)] as a truth value. *)
Fixpoint search_run_manifest (s : string) : bool :=
  match strip_prefix "run " s with
  | Some r => if match_any_then_word_rtm false r then true
              else match s with
                   | EmptyString => false
                   | String _ s' => search_run_manifest s'
                   end
  | None => match s with
            | EmptyString => false
            | String _ s' => search_run_manifest s'
            end
  end.

End Re.

(** ** The pure parts of [revup.py] *)

Definition RESIM_COMMAND : string := "resim".
Definition ENV_FILE : string := ".env".

(** The placeholder [f"${k}"]. *)
Definition placeholder (k : string) : string := String Char.DOLLAR k.

(** [perform_variable_sub(txt, named_props)]: the loop over
    [named_props.items()] with its early [return]. *)
Fixpoint perform_variable_sub (txt : string) (named_props : Dict.t)
  : string :=
  match named_props with
  | [] => txt
  | (k, v) :: rest =>
      if negb (Z.eqb (Str.find txt (placeholder k)) (-1))
      then Str.replace txt (placeholder k) v
      else perform_variable_sub txt rest
  end.

(** The body of [for prop in named_props_parts] in
    [populate_named_props], with its running [idx]. *)
Fixpoint assign_props (named_props_parts : list string) (idx : nat)
  (addresses : addr_result) (named_props_map : Dict.t) : result Dict.t :=
  match named_props_parts with
  | [] => Ok named_props_map
  | prop :: rest =>
      match subscript addresses idx with
      | Ok a =>
          assign_props rest (S idx) addresses (Dict.set named_props_map prop a)
      | Raise e => Raise e
      end
  end.

(** The names [populate_named_props] reads in a binding-names text:
    its [named_props_parts], and none for an empty text. *)
Definition declared_names (named_props : string) : list string :=
  if Nat.ltb 0 (String.length named_props)
  then Str.split named_props " " else [].

(** [Revup.populate_named_props(named_props, addresses)] *)
Definition populate_named_props (named_props : string)
  (addresses : addr_result) : result Dict.t :=
  if Nat.ltb 0 (String.length named_props) then
    let named_props_parts := Str.split named_props " " in
    if Nat.leb (List.length named_props_parts) (py_len addresses)
    then assign_props named_props_parts 0 addresses Dict.empty
    else Ok Dict.empty
  else Ok Dict.empty.

(** [ResimExecutor.address_extract_patterns]: each pattern is its label
    followed by the group [([0-9a-fA-F]+)], compiled with IGNORECASE. *)
Definition address_extract_patterns : list string :=
  [ "component: ";
    "resource: ";
    "package: ";
    "account component address: ";
    "public key: " ].

(** [ResimExecutor.extract_output_addresses(cmd_output)]: the two nested
    loops appending to [addresses]. *)
Definition extract_output_addresses (cmd_output : list pyline)
  : list string :=
  fold_left
    (fun addresses line =>
       fold_left
         (fun addresses p =>
            match Re.search_hex_after p (py_str line) with
            | Some g => addresses ++ [g]
            | None => addresses
            end)
         address_extract_patterns addresses)
    cmd_output [].

(** The test that makes [process_inputfile] skip a line: a bare newline,
    or a line starting with two slashes or two backslashes. *)
Definition is_skipped (command : string) : bool :=
  (String.eqb command (String Char.LF "")
   || Str.startswith command "//"
   || Str.startswith command
        (String Char.BACKSLASH (String Char.BACKSLASH "")))%bool.

(** [x.strip().replace("\n", "")] *)
Definition normalize (x : string) : string :=
  Str.replace (Str.strip x) (String Char.LF "") "".

(** [command_and_args[0].strip().replace("\n", "")] for a line of the
    directive file. *)
Definition directive_command (command : string) : string :=
  normalize (nth 0 (Str.split command "->") "").

(** [command_and_args[1].strip().replace("\n", "")], when
    [len(command_and_args) > 1]. *)
Definition directive_named_props (command : string) : option string :=
  match Str.split command "->" with
  | _ :: arg1 :: _ => Some (normalize arg1)
  | _ => None
  end.

(** The inner loop of [do_run_manifest] on one line. *)
Definition substitute_line (line : string) (named_props : Dict.t) : string :=
  fold_left
    (fun normalized_line kv =>
       Str.replace normalized_line (placeholder (fst kv)) (snd kv))
    named_props line.

(** One line of the env file: [f"{k}={v}\n"]. *)
Definition env_line (kv : string * string) : string :=
  fst kv +:+ "=" +:+ snd kv +:+ String Char.LF "".

(** ** State, exceptions and the effectful parts *)

(** The levels of the records that reach the log: [logging.basicConfig]
    sets the level INFO, so the [logging.debug] calls leave no record. *)
Inductive level : Type := INFO | ERROR.

Inductive event : Type :=
| EvSpawn (argv : list string)
| EvRead (path : string)
| EvWrite (path : string)
| EvLog (lvl : level) (msg : string).

(** How a call of [subprocess.run(argv, capture_output=True)] ends: the
    process ran and exited, or it could not be started and the call
    raised ([OSError] when the program cannot be executed, [ValueError]
    when an argument holds a null character). *)
Inductive proc : Type :=
| Exited (returncode : Z) (stdout stderr : string)
| NotStarted (e : exn).

(** [str(e)].  The handlers that format an exception only ever receive an
    [OSError]; the handler of [CalledProcessError] prints [e.stderr]. *)
Definition exn_str (e : exn) : string :=
  match e with
  | OSError msg => msg
  | ValueError msg => msg
  | CalledProcessError _ _ => "Command returned non-zero exit status"
  | IndexError => "list index out of range"
  | KeyError => "0"
  end.

Definition no_such_file (path : string) : exn :=
  OSError ("[Errno 2] No such file or directory: '" +:+ path +:+ "'").

Definition permission_denied (path : string) : exn :=
  OSError ("[Errno 13] Permission denied: '" +:+ path +:+ "'").

Section Engine.

(** The external tool: its own state, and what a run of it with the
    given argument vector does. *)
Variable T : Type.
Variable resim : T -> list string -> proc * T.
(** The paths that can be opened for writing. *)
Variable writable : string -> bool.

Record state : Type := mkState {
  files : gmap string string;
  tool : T;
  trace : list event
}.

Definition M (A : Type) : Type := state -> result A * state.

Definition ret {A} (a : A) : M A := fun st => (Ok a, st).

Definition raise {A} (e : exn) : M A := fun st => (Raise e, st).

Definition bind {A B} (m : M A) (k : A -> M B) : M B :=
  fun st =>
    match m st with
    | (Ok a, st') => k a st'
    | (Raise e, st') => (Raise e, st')
    end.

(** [try: m  except Exception as e: h e] *)
Definition try_except {A} (m : M A) (h : exn -> M A) : M A :=
  fun st =>
    match m st with
    | (Ok a, st') => (Ok a, st')
    | (Raise e, st') => h e st'
    end.

Definition lift {A} (r : result A) : M A := fun st => (r, st).

Local Notation "'let!' x ':=' m 'in' k" := (bind m (fun x => k))
  (at level 10, x name, m at level 100, k at level 200).

Definition emit (e : event) : M unit :=
  fun st => (Ok tt, mkState (files st) (tool st) (trace st ++ [e])).

Definition log (lvl : level) (msg : string) : M unit := emit (EvLog lvl msg).

(** [with open(path, 'r') as f: f.readlines()]: the file is read in
    text mode, so its newlines are translated before the lines are cut;
    a file that is not there makes [open] raise. *)
Definition open_readlines (path : string) : M (list string) :=
  let! _ := emit (EvRead path) in
  fun st =>
    match files st !! path with
    | Some content => (Ok (Str.text_lines content), st)
    | None => (Raise (no_such_file path), st)
    end.

(** [with open(path, 'w') as out: out.writelines(lines)]: the file is
    truncated, then the lines are written one after the other.  On
    output the text layer writes LF as the line separator of the system,
    which is LF itself on the POSIX systems this models. *)
Definition open_writelines (path : string) (lines : list string) : M unit :=
  let! _ := emit (EvWrite path) in
  fun st =>
    if writable path
    then (Ok tt, mkState (<[path := Str.concat lines]> (files st))
                   (tool st) (trace st))
    else (Raise (permission_denied path), st).

(** [subprocess.run(argv, capture_output=True, check=True).stdout] *)
Definition subprocess_run (argv : list string) : M string :=
  let! _ := emit (EvSpawn argv) in
  fun st =>
    match resim (tool st) argv with
    | (Exited rc out err, t') =>
        let st' := mkState (files st) t' (trace st) in
        if Z.eqb rc 0 then (Ok out, st')
        else (Raise (CalledProcessError rc err), st')
    | (NotStarted e, t') => (Raise e, mkState (files st) t' (trace st))
    end.

(** [ResimExecutor.do_run_manifest(cmd, named_props)] *)
Definition do_run_manifest (cmd : string) (named_props : Dict.t) : M unit :=
  match Re.search_word_rtm true cmd with
  | Some file_name =>
      try_except
        (let! rtm_content := open_readlines file_name in
         let updated_content :=
           if Nat.ltb 0 (List.length rtm_content)
           then map (fun line => substitute_line line named_props)
                  rtm_content
           else [] in
         if Nat.ltb 0 (List.length updated_content)
         then open_writelines (file_name +:+ ".dat") updated_content
         else ret tt)
        (fun e =>
           log ERROR ("failed to process manifest file due to "
                      +:+ exn_str e))
  | None => ret tt
  end.

(** The handler of [execute]: only [CalledProcessError] is caught. *)
Definition on_called_process_error (cmd : string) (e : exn)
  : M addr_result :=
  match e with
  | CalledProcessError _ stderr =>
      let! _ := log ERROR ("failed to execute '" +:+ RESIM_COMMAND +:+ " "
                      +:+ cmd +:+ "' due to " +:+ Repr.bytes_repr stderr) in
      ret EmptyMapping
  | _ => raise e
  end.

(** [ResimExecutor.execute(cmd, named_props)] *)
Definition execute (cmd : string) (named_props : Dict.t) : M addr_result :=
  if Re.search_run_manifest cmd then
    let! _ := do_run_manifest cmd named_props in
    ret EmptyMapping
  else
    try_except
      (let normalized_cmd := perform_variable_sub cmd named_props in
       let normalized_cmd := RESIM_COMMAND :: Str.split normalized_cmd " " in
       let! _ := log INFO (">>> " +:+ cmd) in
       let! output := subprocess_run normalized_cmd in
       let cmd_output := map Bytes (Str.splitlines output) in
       ret (AddrList (extract_output_addresses cmd_output)))
      (on_called_process_error cmd).

(** The body of the loop of [process_inputfile] for a line that is not
    skipped: the new binding map. *)
Definition run_directive (command : string) (named_props_map : Dict.t)
  : M Dict.t :=
  let normalized_cmd := directive_command command in
  let! addresses := execute normalized_cmd named_props_map in
  match directive_named_props command with
  | Some named_props =>
      let! update := lift (populate_named_props named_props addresses) in
      ret (Dict.update named_props_map update)
  | None => ret named_props_map
  end.

(** [for command in commands: ...] *)
Fixpoint run_directives (commands : list string) (named_props_map : Dict.t)
  : M Dict.t :=
  match commands with
  | [] => ret named_props_map
  | command :: rest =>
      if is_skipped command then run_directives rest named_props_map
      else
        let! next_map := run_directive command named_props_map in
        run_directives rest next_map
  end.

(** [Revup.write_props_to_env(named_props_map)] *)
Definition write_props_to_env (named_props_map : Dict.t) : M unit :=
  try_except
    (open_writelines ENV_FILE (map env_line named_props_map))
    (fun e => log ERROR ("failed to write to env file due to "
                         +:+ exn_str e)).

(** [Revup.process_inputfile()] for [parsed_args.input_file]. *)
Definition process_inputfile (input_file : string) : M unit :=
  let! commands := open_readlines input_file in
  let! named_props_map := run_directives commands Dict.empty in
  write_props_to_env named_props_map.

End Engine.

Arguments mkState {T} files tool trace.
Arguments files {T} s.
Arguments tool {T} s.
Arguments trace {T} s.
Arguments ret {T A} a.
Arguments raise {T A} e.
Arguments bind {T A B} m k.
Arguments try_except {T A} m h.
Arguments lift {T A} r.
Arguments emit {T} e.
Arguments log {T} lvl msg.
Arguments open_readlines {T} path.
Arguments open_writelines {T} writable path lines.
Arguments subprocess_run {T} resim argv.
Arguments do_run_manifest {T} writable cmd named_props.
Arguments on_called_process_error {T} cmd e.
Arguments execute {T} resim writable cmd named_props.
Arguments run_directive {T} resim writable command named_props_map.
Arguments run_directives {T} resim writable commands named_props_map.
Arguments write_props_to_env {T} writable named_props_map.
Arguments process_inputfile {T} resim writable input_file.

(** ** The reading of the spec that the code is compared with *)

Module Spec.

(** [s] without its first [n] characters. *)
Fixpoint skipn (n : nat) (s : string) : string :=
  match n, s with
  | O, _ => s
  | S _, EmptyString => EmptyString
  | S k, String _ s' => skipn k s'
  end.

(** "Replaces a single placeholder occurrence": only the leftmost
    occurrence of [old] is replaced. *)
Fixpoint replace_once (s old new : string) : string :=
  if Str.startswith s old then new +:+ skipn (String.length old) s
  else match s with
       | EmptyString => EmptyString
       | String c s' => String c (replace_once s' old new)
       end.

(** The substitution engine as section 4.2 words it. *)
Fixpoint single_substitution (txt : string) (named_props : Dict.t)
  : string :=
  match named_props with
  | [] => txt
  | (k, v) :: rest =>
      if negb (Z.eqb (Str.find txt (placeholder k)) (-1))
      then replace_once txt (placeholder k) v
      else single_substitution txt rest
  end.

(** "Split on the first occurrence of the delimiter": the text before
    it, and the whole remainder after it when there is one. *)
Definition split_first (s sep : string) : string * option string :=
  match Str.index_of s sep with
  | Some i =>
      (String.substring 0 i s, Some (skipn (i + String.length sep) s))
  | None => (s, None)
  end.

(** The binding-names text "stripped identically". *)
Definition named_props_after_first (command : string) : option string :=
  option_map normalize (snd (split_first command "->")).

(** "A whitespace-separated ordered sequence of names": the maximal
    runs of characters that are no whitespace. *)
Fixpoint words_from (cur s : string) : list string :=
  match s with
  | EmptyString => if Str.is_empty cur then [] else [cur]
  | String c s' =>
      if Char.is_space c
      then (if Str.is_empty cur then words_from "" s'
            else cur :: words_from "" s')
      else words_from (Str.snoc cur c) s'
  end.

Definition whitespace_separated_names (named_props : string)
  : list string := words_from "" named_props.

End Spec.

(** ** Auxiliary notions used to state the properties *)

(** The addresses an execution result holds. *)
Definition addr_items (a : addr_result) : list string :=
  match a with
  | AddrList l => l
  | EmptyMapping => []
  end.

Definition opt_list {A} (o : option A) : list A :=
  match o with
  | Some x => [x]
  | None => []
  end.

(** What one output line contributes: for each pattern in declaration
    order, the group of its leftmost match. *)
Definition line_addresses (line : pyline) : list string :=
  flat_map (fun p => opt_list (Re.search_hex_after p (py_str line)))
    address_extract_patterns.

(** Lower-casing a text, to state case-insensitivity. *)
Fixpoint lower_str (s : string) : string :=
  match s with
  | EmptyString => EmptyString
  | String c s' => String (Char.lower c) (lower_str s')
  end.

Fixpoint str_forallb (f : ascii -> bool) (s : string) : bool :=
  match s with
  | EmptyString => true
  | String c s' => (f c && str_forallb f s')%bool
  end.

Fixpoint str_existsb (f : ascii -> bool) (s : string) : bool :=
  match s with
  | EmptyString => false
  | String c s' => (f c || str_existsb f s')%bool
  end.

(** A non-empty token of hexadecimal digits. *)
Definition is_hex_token (h : string) : bool :=
  (negb (Str.is_empty h) && str_forallb Char.is_hex h)%bool.

(** The literal [label] fails against [t] at a character of [t]. *)
Fixpoint mismatch (label t : string) {struct label} : bool :=
  match label, t with
  | String b label', String a t' =>
      if Char.eqb_ci a b then mismatch label' t' else true
  | _, _ => false
  end.

(** No match of [label] can start inside [pre], whatever follows. *)
Fixpoint no_start_within (label pre : string) : bool :=
  match pre with
  | EmptyString => true
  | String _ pre' => (mismatch label pre && no_start_within label pre')%bool
  end.

(** A byte that [repr] shows as it is between single quotes. *)
Definition plain (c : ascii) : bool :=
  (N.leb 32 (Char.code c) && N.ltb (Char.code c) 127
   && negb (Char.eqb c Char.SQUOTE) && negb (Char.eqb c Char.DQUOTE)
   && negb (Char.eqb c Char.BACKSLASH))%bool.

(** The label of the account pattern. *)
Definition account_label : string := "account component address: ".

Definition hex_or_quote (c : ascii) : bool :=
  (Char.is_hex c || Char.eqb c Char.SQUOTE)%bool.

Module Sample.

Definition NL : string := String Char.LF "".

Definition CR : string := String Char.CR "".

Definition CRLF : string := String Char.CR (String Char.LF "").

Definition always_writable (path : string) : bool := true.




(** A tool that answers [new-account] with an account address and a
    public key, and [show] of anything with exit status 1.  Its state
    counts the runs. *)
Definition ledger_tool (runs : nat) (argv : list string) : proc * nat :=
  if bool_decide (argv = ["resim"; "new-account"])
  then (Exited 0
          ("Account component address: 02ab" +:+ NL
           +:+ "Public key: 03cd" +:+ NL) "",
        S runs)
  else (Exited 1 "" "error: not found", S runs).

Definition disk (l : list (string * string)) : gmap string string :=
  list_to_map l.

Definition start {T} (l : list (string * string)) (t : T) : state T :=
  mkState (disk l) t [].

(** A directive file that opens an account and then shows it. *)
Definition account_source : string :=
  "new-account -> acct pub" +:+ NL +:+ "show $acct -> addr" +:+ NL.




End Sample.

(** The argument vector of a generic command. *)
Definition argv_of (cmd : string) (named_props : Dict.t) : list string :=
  RESIM_COMMAND :: Str.split (perform_variable_sub cmd named_props) " ".

(** The record logged when the tool exits with a non-zero status. *)
Definition failure_record (cmd stderr : string) : event :=
  EvLog ERROR ("failed to execute '" +:+ RESIM_COMMAND +:+ " " +:+ cmd
               +:+ "' due to " +:+ Repr.bytes_repr stderr).

Definition is_called_process_error (e : exn) : bool :=
  match e with
  | CalledProcessError _ _ => true
  | _ => false
  end.

(** An event of a manifest run after the manifest was opened. *)
Definition manifest_event (f : string) (e : event) : Prop :=
  e = EvWrite (f +:+ ".dat") \/ exists msg, e = EvLog ERROR msg.

(** The update a directive line makes with the addresses it got. *)
Definition directive_update (command : string) (addresses : addr_result)
  : Dict.t :=
  match directive_named_props command with
  | Some named_props =>
      if Nat.leb (List.length (declared_names named_props)) (py_len addresses)
      then Dict.update Dict.empty
             (combine (declared_names named_props) (addr_items addresses))
      else Dict.empty
  | None => Dict.empty
  end.


(** The process ended with an exit status. *)
Definition exited (p : proc) : bool :=
  match p with
  | Exited _ _ _ => true
  | NotStarted _ => false
  end.


(** The names a directive line declares after its first [->]: the
    [named_props_parts] of [populate_named_props], none without [->]. *)
Definition directive_names (command : string) : list string :=
  match directive_named_props command with
  | Some named_props => declared_names named_props
  | None => []
  end.

(** The names that the directives of [lines] which are run declare. *)
Definition declared_by (lines : list string) : list string :=
  concat (map (fun command =>
                 if is_skipped command then [] else directive_names command)
            lines).

(** ** The rest of [Revup]: the pre-flight checks and the starter file *)

Definition BOOTSTRAP_FILE_NAME : string := "revup.rev".

(** The template that [generate_revup_filesample] copies. *)
Definition TEMPLATE_FILE : string := "template/bootstrap.r".

(** The namespace [ARGP.parse_args] returns. *)
Record parsed_args : Type := mkArgs {
  input_file : string;
  env_file : string;
  generate : bool
}.

(** The command line [check_resim_is_executable] hands to the shell. *)
Definition version_probe : string := RESIM_COMMAND +:+ " --version".

(** With [shell=True] the list's only element is run by [/bin/sh -c]. *)
Definition shell_argv (cmdline : string) : list string :=
  ["/bin/sh"; "-c"; cmdline].

Definition probe_failure : event :=
  EvLog ERROR ("error invoking '" +:+ RESIM_COMMAND
               +:+ "'. Make sure it's visible on PATH").

Definition unreadable_input (path : string) : event :=
  EvLog ERROR ("'" +:+ path +:+ "' does not exist OR is not readable").

Definition generated_record : event :=
  EvLog INFO ("generated bootstrap file, see " +:+ BOOTSTRAP_FILE_NAME).

Section Preflight.

(** The external tool as before, and what the shell does with a command
    line. *)
Variable T : Type.
Variable resim : T -> list string -> proc * T.
Variable shell : T -> string -> proc * T.
Variable writable : string -> bool.

(** [Revup.check_resim_is_executable()]: the output goes to DEVNULL, and
    only [CalledProcessError] is caught. *)
Definition check_resim_is_executable : M T unit :=
  try_except
    (bind (subprocess_run (fun t _ => shell t version_probe)
             (shell_argv version_probe))
       (fun _ => ret tt))
    (fun e =>
       match e with
       | CalledProcessError _ _ => emit probe_failure
       | _ => raise e
       end).

(** [Revup.validate_args()]: the file is opened and closed at once; the
    bare [except] catches everything. *)
Definition validate_args (args : parsed_args) : M T unit :=
  if generate args then ret tt
  else
    try_except
      (bind (open_readlines (input_file args)) (fun _ => ret tt))
      (fun _ => emit (unreadable_input (input_file args))).

(** [Revup.generate_revup_filesample()]: the template is opened outside
    the [try]. *)
Definition generate_revup_filesample : M T unit :=
  bind (open_readlines TEMPLATE_FILE)
    (fun template_lines =>
       try_except
         (bind (open_writelines writable BOOTSTRAP_FILE_NAME template_lines)
            (fun _ => emit generated_record))
         (fun e =>
            log ERROR ("failed to generate bootstrap file due to "
                       +:+ exn_str e))).

(** [Revup.rev()] *)
Definition rev (args : parsed_args) : M T unit :=
  bind check_resim_is_executable
    (fun _ =>
       bind (validate_args args)
         (fun _ =>
            if generate args then generate_revup_filesample
            else process_inputfile resim writable (input_file args))).

End Preflight.

Arguments check_resim_is_executable {T} shell.
Arguments validate_args {T} args.
Arguments generate_revup_filesample {T} writable.
Arguments rev {T} resim shell writable args.

(** ** Further notions used to state properties *)

(** [s.endswith(suffix)] *)
Definition endswith (s suffix : string) : bool :=
  (Nat.leb (String.length suffix) (String.length s)
   && String.eqb
        (Spec.skipn (String.length s - String.length suffix) s) suffix)%bool.

(** The character [c] does not occur in [s]. *)
Definition lacks (c : ascii) (s : string) : bool :=
  str_forallb (fun x => negb (Char.eqb x c)) s.

(** A name or address that fits on one line of the env file. *)
Definition one_line (s : string) : bool := lacks Char.LF s.

(** A directive that runs the tool: neither skipped nor a manifest run. *)
Definition spawns_tool (command : string) : bool :=
  (negb (is_skipped command)
   && negb (Re.search_run_manifest (directive_command command)))%bool.

Definition is_spawn (e : event) : bool :=
  match e with
  | EvSpawn _ => true
  | _ => false
  end.

(** A binding whose placeholder occurs in the text. *)
Definition occurs_in (txt : string) (kv : string * string) : bool :=
  negb (Z.eqb (Str.find txt (placeholder (fst kv))) (-1)).

(** A shell in which the tool answers the version probe, and one in which
    it is not found. *)
Definition shell_with_tool (t : nat) (cmdline : string) : proc * nat :=
  (Exited 0 "resim 1.0" "", t).

Definition shell_without_tool (t : nat) (cmdline : string) : proc * nat :=
  (Exited 127 "" "/bin/sh: 1: resim: not found", t).

(** A binding as a run makes them: the name holds neither a space nor a
    newline, the address is a hex token. *)
Definition well_formed_binding (kv : string * string) : Prop :=
  lacks " " (fst kv) = true /\ one_line (fst kv) = true
  /\ is_hex_token (snd kv) = true.

(** The events of the version probe that exited with status [rc]. *)
Definition probe_events (rc : Z) : list event :=
  EvSpawn (shell_argv version_probe)
  :: (if Z.eqb rc 0 then [] else [probe_failure]).

(** * Properties *)

(** ** Facts about the string primitives *)

Module StrFacts.

Lemma app_nil_r (s : string) : s +:+ "" = s.
Proof. induction s as [|c s IH]; simpl; [reflexivity | now rewrite IH]. Qed.

Lemma app_assoc (a b c : string) : (a +:+ b) +:+ c = a +:+ b +:+ c.
Proof. induction a as [|x a IH]; simpl; [reflexivity | now rewrite IH]. Qed.

Lemma length_app (a b : string) :
  String.length (a +:+ b) = (String.length a + String.length b)%nat.
Proof. induction a as [|x a IH]; simpl; [reflexivity | now rewrite IH]. Qed.

Lemma char_eqb_true (a b : ascii) : Char.eqb a b = true <-> a = b.
Proof. unfold Char.eqb. apply Ascii.eqb_eq. Qed.

Lemma char_eqb_refl (a : ascii) : Char.eqb a a = true.
Proof. now apply char_eqb_true. Qed.

Lemma is_empty_true (s : string) : Str.is_empty s = true <-> s = "".
Proof. destruct s; simpl; split; congruence. Qed.

Lemma startswith_app (p r : string) : Str.startswith (p +:+ r) p = true.
Proof.
  induction p as [|c p IH]; simpl; [reflexivity|].
  now rewrite char_eqb_refl, IH.
Qed.

Lemma startswith_inv (s p : string) :
  Str.startswith s p = true -> exists r, s = p +:+ r.
Proof.
  revert s; induction p as [|b p IH]; intros s H; simpl in *.
  - now exists s.
  - destruct s as [|a s]; [discriminate|].
    apply andb_true_iff in H as [Hab Hs].
    apply char_eqb_true in Hab; subst b.
    destruct (IH _ Hs) as [r ->]. now exists r.
Qed.

(** *** [index_of] and [find] *)

Lemma index_of_none_cons (c : ascii) (s sub : string) :
  Str.index_of (String c s) sub = None ->
  Str.startswith (String c s) sub = false /\ Str.index_of s sub = None.
Proof.
  cbn [Str.index_of].
  destruct (Str.startswith (String c s) sub); [discriminate|].
  destruct (Str.index_of s sub); [discriminate|]. now split.
Qed.

Lemma index_of_succ_cons (c : ascii) (s sub : string) (i : nat) :
  Str.index_of (String c s) sub = Some (S i) ->
  Str.startswith (String c s) sub = false /\ Str.index_of s sub = Some i.
Proof.
  cbn [Str.index_of].
  destruct (Str.startswith (String c s) sub); [discriminate|].
  destruct (Str.index_of s sub); simpl; [|discriminate].
  intros [= ->]. now split.
Qed.

Lemma index_of_zero (s sub : string) :
  Str.index_of s sub = Some O -> Str.startswith s sub = true.
Proof.
  destruct s as [|c s]; cbn [Str.index_of];
    destruct (Str.startswith _ sub); try reflexivity; try discriminate.
  destruct (Str.index_of s sub); discriminate.
Qed.

Lemma find_absent (s sub : string) :
  Str.find s sub = -1 <-> Str.index_of s sub = None.
Proof.
  unfold Str.find. destruct (Str.index_of s sub); split; try congruence; lia.
Qed.

Lemma find_at (s sub : string) (i : nat) :
  Str.find s sub = Z.of_nat i <-> Str.index_of s sub = Some i.
Proof.
  unfold Str.find. destruct (Str.index_of s sub) as [j|]; split;
    intros H; try lia; try congruence.
  f_equal; lia.
Qed.

(** *** [replace] *)

Lemma replace_nonempty (s old new : string) :
  old <> "" -> Str.replace s old new = Str.replace_from O s old new.
Proof. unfold Str.replace. destruct old; simpl; congruence. Qed.

Lemma replace_from_skip (p r old new : string) :
  Str.replace_from (String.length p) (p +:+ r) old new
  = Str.replace_from O r old new.
Proof. induction p as [|c p IH]; simpl; [reflexivity | exact IH]. Qed.

(** Where [old] does not occur nothing changes. *)
Lemma replace_from_absent (s old new : string) :
  Str.index_of s old = None -> Str.replace_from O s old new = s.
Proof.
  induction s as [|c s IH]; intros H; [reflexivity|].
  apply index_of_none_cons in H as [Hsw Hs].
  cbn [Str.replace_from]. rewrite Hsw. now rewrite IH.
Qed.

Lemma replace_absent (s old new : string) :
  old <> "" -> Str.find s old = -1 -> Str.replace s old new = s.
Proof.
  intros Hne H. rewrite replace_nonempty by assumption.
  apply replace_from_absent. now apply find_absent.
Qed.

(** The leftmost occurrence is replaced and the scan goes on behind
    it: every occurrence met this way is replaced. *)
Lemma replace_from_first (a b old new : string) :
  old <> "" ->
  Str.index_of (a +:+ old +:+ b) old = Some (String.length a) ->
  Str.replace_from O (a +:+ old +:+ b) old new
  = a +:+ new +:+ Str.replace_from O b old new.
Proof.
  intros Hne. induction a as [|x a IH]; intros H.
  - destruct old as [|c old]; [congruence|]. simpl in *.
    rewrite char_eqb_refl, startswith_app. simpl.
    now rewrite replace_from_skip.
  - simpl in H. apply index_of_succ_cons in H as [Hsw Hidx].
    change (String x a +:+ old +:+ b) with (String x (a +:+ old +:+ b)).
    cbn [Str.replace_from]. rewrite Hsw. simpl. now rewrite IH.
Qed.

Lemma replace_first (a b old new : string) :
  old <> "" ->
  Str.find (a +:+ old +:+ b) old = Z.of_nat (String.length a) ->
  Str.replace (a +:+ old +:+ b) old new
  = a +:+ new +:+ Str.replace b old new.
Proof.
  intros Hne H. rewrite !replace_nonempty by assumption.
  apply replace_from_first; [assumption | now apply find_at].
Qed.

Lemma placeholder_nonempty (k : string) : placeholder k <> "".
Proof. discriminate. Qed.

End StrFacts.

(** ** The variable substitution engine *)

Lemma perform_variable_sub_no_match (txt : string) (m : Dict.t) :
  Forall (fun kv => Str.find txt (placeholder (fst kv)) = -1) m ->
  perform_variable_sub txt m = txt.
Proof.
  induction 1 as [|[k v] m Hk _ IH]; simpl; [reflexivity|].
  simpl in Hk. now rewrite Hk.
Qed.

Lemma perform_variable_sub_first_match
  (txt : string) (pre : Dict.t) (k v : string) (post : Dict.t) :
  Forall (fun kv => Str.find txt (placeholder (fst kv)) = -1) pre ->
  Str.find txt (placeholder k) <> -1 ->
  perform_variable_sub txt (pre ++ (k, v) :: post)
  = Str.replace txt (placeholder k) v.
Proof.
  intros Hpre Hk. induction Hpre as [|[k' v'] pre Hk' _ IH]; simpl.
  - apply Z.eqb_neq in Hk. now rewrite Hk.
  - simpl in Hk'. now rewrite Hk'.
Qed.

(** C2, the claim as worded, fails: with two occurrences of the
    placeholder of the first matching name, the code replaces both,
    whereas a single replacement would leave the second one. *)
Lemma perform_variable_sub_not_single_occurrence :
  perform_variable_sub "$a $a" [("a", "1")] = "1 1"
  /\ Spec.single_substitution "$a $a" [("a", "1")] = "1 $a"
  /\ perform_variable_sub "$a $a" [("a", "1")]
     <> Spec.single_substitution "$a $a" [("a", "1")].
Proof. repeat split; try reflexivity. discriminate. Qed.

(** C2 (amended): the bound names are scanned in map order; for the first
    one whose placeholder occurs in the text, every occurrence of that
    placeholder is replaced, from the left and without overlap, and the
    result is returned without looking at the names that follow; when no
    placeholder occurs the text comes back unchanged.  So the text "$a $b"
    under a then b becomes "1 $b". *)
Theorem perform_variable_sub_first_name_all_occurrences :
  forall (txt : string) (m : Dict.t),
    (Forall (fun kv => Str.find txt (placeholder (fst kv)) = -1) m ->
     perform_variable_sub txt m = txt)
    /\ (forall pre k v post,
          m = pre ++ (k, v) :: post ->
          Forall (fun kv => Str.find txt (placeholder (fst kv)) = -1) pre ->
          Str.find txt (placeholder k) <> -1 ->
          perform_variable_sub txt m = Str.replace txt (placeholder k) v
          /\ forall a b,
               txt = a +:+ placeholder k +:+ b ->
               Str.find txt (placeholder k) = Z.of_nat (String.length a) ->
               perform_variable_sub txt m
               = a +:+ v +:+ Str.replace b (placeholder k) v)
    /\ perform_variable_sub "$a $b" [("a", "1"); ("b", "2")] = "1 $b".
Proof.
  intros txt m. split; [apply perform_variable_sub_no_match|].
  split; [|reflexivity].
  intros pre k v post -> Hpre Hk.
  rewrite perform_variable_sub_first_match by assumption.
  split; [reflexivity|].
  intros a b -> Hfirst.
  apply StrFacts.replace_first; [apply StrFacts.placeholder_nonempty | assumption].
Qed.

Lemma perform_variable_sub_first_name_all_occurrences_witness :
  perform_variable_sub "$c $b $b" [("a", "1"); ("b", "2"); ("c", "3")]
  = Str.replace "$c $b $b" (placeholder "b") "2"
  /\ perform_variable_sub "$c $b $b" [("a", "1"); ("b", "2"); ("c", "3")]
     = "$c " +:+ "2" +:+ Str.replace " $b" (placeholder "b") "2"
  /\ perform_variable_sub "$z" [("a", "1"); ("b", "2")] = "$z".
Proof.
  destruct (perform_variable_sub_first_name_all_occurrences
              "$c $b $b" [("a", "1"); ("b", "2"); ("c", "3")])
    as (_ & Hfirst & _).
  destruct (Hfirst [("a", "1")] "b" "2" [("c", "3")] eq_refl) as [Hall Hscan].
  - repeat constructor.
  - vm_compute; discriminate.
  - split; [exact Hall|]. split.
    + apply (Hscan "$c " " $b"); reflexivity.
    + apply (proj1 (perform_variable_sub_first_name_all_occurrences
                     "$z" [("a", "1"); ("b", "2")])).
      repeat constructor.
Defined.

(** ** Facts about the binding dictionary *)

Module DictFacts.

Lemma get_set (d : Dict.t) (k v k' : string) :
  Dict.get (Dict.set d k v) k'
  = if String.eqb k k' then Some v else Dict.get d k'.
Proof.
  induction d as [|[k0 v0] d IH]; simpl.
  - reflexivity.
  - destruct (String.eqb_spec k0 k) as [->|Hne]; simpl.
    + destruct (String.eqb k k'); reflexivity.
    + rewrite IH. destruct (String.eqb_spec k0 k') as [->|]; [|reflexivity].
      destruct (String.eqb_spec k k'); [congruence | reflexivity].
Qed.

Lemma get_set_same (d : Dict.t) (k v : string) :
  Dict.get (Dict.set d k v) k = Some v.
Proof. now rewrite get_set, String.eqb_refl. Qed.

Lemma get_set_other (d : Dict.t) (k v k' : string) :
  k <> k' -> Dict.get (Dict.set d k v) k' = Dict.get d k'.
Proof.
  intros H. rewrite get_set.
  destruct (String.eqb_spec k k'); [contradiction | reflexivity].
Qed.

Lemma elem_of_keys_set (d : Dict.t) (k v k' : string) :
  k' ∈ Dict.keys (Dict.set d k v) <-> k' = k \/ k' ∈ Dict.keys d.
Proof.
  unfold Dict.keys. induction d as [|[k0 v0] d IH]; simpl.
  - rewrite elem_of_cons. reflexivity.
  - destruct (String.eqb_spec k0 k) as [->|Hne]; simpl;
      rewrite !elem_of_cons; [tauto | rewrite IH; tauto].
Qed.

Lemma NoDup_keys_set (d : Dict.t) (k v : string) :
  NoDup (Dict.keys d) -> NoDup (Dict.keys (Dict.set d k v)).
Proof.
  induction d as [|[k0 v0] d IH]; simpl; intros Hnd.
  - apply NoDup_singleton.
  - apply NoDup_cons in Hnd as [Hk0 Hnd].
    destruct (String.eqb_spec k0 k) as [->|Hne]; simpl.
    + apply NoDup_cons; now split.
    + apply NoDup_cons. split; [|now apply IH].
      fold (Dict.keys (Dict.set d k v)). rewrite elem_of_keys_set.
      intros [->|Hin]; [congruence | exact (Hk0 Hin)].
Qed.

Lemma get_is_Some (d : Dict.t) (k : string) :
  is_Some (Dict.get d k) <-> k ∈ Dict.keys d.
Proof.
  unfold Dict.keys. induction d as [|[k0 v0] d IH]; simpl.
  - rewrite elem_of_nil. split; [intros [? [=]] | tauto].
  - rewrite elem_of_cons.
    destruct (String.eqb_spec k0 k) as [->|Hne]; simpl.
    + split; [now left | now eexists].
    + rewrite IH. split; [now right | intros [?|?]; congruence].
Qed.

(** The order of the keys: an assignment to a bound name keeps every
    key in its place, an assignment to a new name puts it last. *)
Lemma keys_set (d : Dict.t) (k v : string) :
  Dict.keys (Dict.set d k v)
  = match Dict.get d k with
    | Some _ => Dict.keys d
    | None => Dict.keys d ++ [k]
    end.
Proof.
  unfold Dict.keys. induction d as [|[k0 v0] d IH]; simpl; [reflexivity|].
  destruct (String.eqb_spec k0 k) as [->|Hne]; simpl; [reflexivity|].
  rewrite IH. now destruct (Dict.get d k).
Qed.

Lemma update_nil (d : Dict.t) : Dict.update d [] = d.
Proof. reflexivity. Qed.

Lemma update_cons (d : Dict.t) (k v : string) (u : Dict.t) :
  Dict.update d ((k, v) :: u) = Dict.update (Dict.set d k v) u.
Proof. reflexivity. Qed.

Lemma update_snoc (d u : Dict.t) (k v : string) :
  Dict.update d (u ++ [(k, v)]) = Dict.set (Dict.update d u) k v.
Proof. unfold Dict.update. now rewrite fold_left_app. Qed.

(** After [d.update(u)] a name has the value written last for it in
    [u], and otherwise the value it had in [d]. *)
Lemma get_update (d u : Dict.t) (k : string) :
  Dict.get (Dict.update d u) k
  = match Dict.last_assigned u k with
    | Some v => Some v
    | None => Dict.get d k
    end.
Proof.
  revert d; induction u as [|[k0 v0] u IH]; intros d; [reflexivity|].
  rewrite update_cons, IH. simpl.
  destruct (Dict.last_assigned u k); [reflexivity|].
  rewrite get_set. now destruct (String.eqb k0 k).
Qed.

Lemma last_assigned_None (u : Dict.t) (k : string) :
  Dict.last_assigned u k = None <-> k ∉ Dict.keys u.
Proof.
  unfold Dict.keys. induction u as [|[k0 v0] u IH]; simpl.
  - split; [intros _; apply not_elem_of_nil | reflexivity].
  - rewrite not_elem_of_cons.
    destruct (Dict.last_assigned u k) eqn:E.
    + split; [discriminate|]. intros [_ H]. now apply IH in H.
    + destruct (String.eqb_spec k0 k) as [->|Hne].
      * split; [discriminate | intros [H _]; congruence].
      * split; [|reflexivity]. intros _. split; [congruence | now apply IH].
Qed.

Lemma last_assigned_NoDup (d : Dict.t) (k : string) :
  NoDup (Dict.keys d) -> Dict.last_assigned d k = Dict.get d k.
Proof.
  induction d as [|[k0 v0] d IH]; simpl; intros Hnd; [reflexivity|].
  apply NoDup_cons in Hnd as [Hk0 Hnd].
  destruct (String.eqb_spec k0 k) as [->|Hne].
  - apply last_assigned_None in Hk0. now rewrite Hk0.
  - rewrite (IH Hnd). now destruct (Dict.get d k).
Qed.

Lemma NoDup_keys_update (d u : Dict.t) :
  NoDup (Dict.keys d) -> NoDup (Dict.keys (Dict.update d u)).
Proof.
  revert d; induction u as [|[k0 v0] u IH]; intros d Hnd; [exact Hnd|].
  rewrite update_cons. apply IH. now apply NoDup_keys_set.
Qed.

Lemma elem_of_keys_update (d u : Dict.t) (k : string) :
  k ∈ Dict.keys (Dict.update d u) <-> k ∈ Dict.keys d \/ k ∈ Dict.keys u.
Proof.
  revert d; induction u as [|[k0 v0] u IH]; intros d.
  - simpl. rewrite elem_of_nil. tauto.
  - rewrite update_cons, IH, elem_of_keys_set. simpl.
    rewrite elem_of_cons. tauto.
Qed.

(** The keys of [d] keep their relative order under [d.update(u)]:
    new names are only added behind them. *)
Lemma keys_update_prefix (d u : Dict.t) :
  exists added, Dict.keys (Dict.update d u) = Dict.keys d ++ added.
Proof.
  revert d; induction u as [|[k0 v0] u IH]; intros d.
  - exists []. simpl. now rewrite app_nil_r.
  - rewrite update_cons. destruct (IH (Dict.set d k0 v0)) as [added ->].
    rewrite keys_set. destruct (Dict.get d k0).
    + now exists added.
    + exists (k0 :: added). now rewrite <- app_assoc.
Qed.

(** Reading the dictionary built from a list of assignments. *)
Lemma get_of_assignments (c : list (string * string)) (k : string) :
  Dict.get (Dict.update Dict.empty c) k = Dict.last_assigned c k.
Proof. rewrite get_update. now destruct (Dict.last_assigned c k). Qed.

Lemma get_update_of_assignments (d : Dict.t) (c : list (string * string))
  (k : string) :
  Dict.get (Dict.update d (Dict.update Dict.empty c)) k
  = match Dict.last_assigned c k with
    | Some v => Some v
    | None => Dict.get d k
    end.
Proof.
  rewrite get_update, last_assigned_NoDup, get_of_assignments.
  - reflexivity.
  - apply NoDup_keys_update. apply NoDup_nil_2.
Qed.

(** In a list of assignments to pairwise distinct positions, the value
    written at the last position of a name wins. *)
Lemma last_assigned_combine (names l : list string) (i : nat) (n a : string) :
  nth_error names i = Some n ->
  nth_error l i = Some a ->
  (forall j, (i < j)%nat -> nth_error names j <> Some n) ->
  Dict.last_assigned (combine names l) n = Some a.
Proof.
  revert l i; induction names as [|n0 names IH]; intros l i Hn Ha Hlast.
  - destruct i; discriminate.
  - destruct l as [|a0 l]; [destruct i; discriminate|].
    destruct i as [|i]; simpl in *.
    + injection Hn as ->. injection Ha as ->.
      assert (Hnone : Dict.last_assigned (combine names l) n = None).
      { apply last_assigned_None. unfold Dict.keys.
        intros Hin. apply list_elem_of_fmap in Hin as [[k v] [-> Hin]].
        apply list_elem_of_In, in_combine_l, (In_nth_error names) in Hin.
        destruct Hin as [j Hj]. apply (Hlast (S j)); [lia | exact Hj]. }
      rewrite Hnone, String.eqb_refl. reflexivity.
    + rewrite (IH l i Hn Ha); [reflexivity|].
      intros j Hj. apply (Hlast (S j)). lia.
Qed.

End DictFacts.

(** ** Binding names to addresses *)

Lemma split_from_not_nil (skip : nat) (cur s sep : string) :
  Str.split_from skip cur s sep <> [].
Proof.
  revert skip cur; induction s as [|c s IH]; intros skip cur; simpl.
  - discriminate.
  - destruct skip; [|apply IH].
    destruct (Str.startswith (String c s) sep); [discriminate | apply IH].
Qed.

Lemma split_length_pos (s sep : string) :
  (0 < List.length (Str.split s sep))%nat.
Proof.
  pose proof (split_from_not_nil 0 "" s sep) as H. unfold Str.split.
  destruct (Str.split_from 0 "" s sep); [congruence | simpl; lia].
Qed.

Lemma skipn_nth_error {A} (l : list A) (i : nat) (x : A) :
  nth_error l i = Some x -> skipn i l = x :: skipn (S i) l.
Proof.
  revert i; induction l as [|y l IH]; intros [|i] H; try discriminate.
  - now injection H as ->.
  - simpl in H. exact (IH i H).
Qed.

Lemma assign_props_ok (parts : list string) (idx : nat) (l : list string)
  (m : Dict.t) :
  (idx + List.length parts <= List.length l)%nat ->
  assign_props parts idx (AddrList l) m
  = Ok (Dict.update m (combine parts (skipn idx l))).
Proof.
  revert idx m; induction parts as [|p parts IH]; intros idx m Hlen.
  - reflexivity.
  - simpl in Hlen. simpl.
    destruct (nth_error l idx) as [a|] eqn:E.
    + rewrite IH by lia. rewrite (skipn_nth_error _ _ _ E). reflexivity.
    + apply nth_error_None in E. lia.
Qed.

(** [populate_named_props] never raises: the subscript stays in range. *)
Lemma populate_named_props_eq (named_props : string) (addresses : addr_result) :
  populate_named_props named_props addresses
  = Ok (if Nat.leb (List.length (declared_names named_props))
                   (py_len addresses)
        then Dict.update Dict.empty
               (combine (declared_names named_props) (addr_items addresses))
        else Dict.empty).
Proof.
  unfold populate_named_props, declared_names.
  destruct (Nat.ltb 0 (String.length named_props)); [|reflexivity].
  destruct (Nat.leb_spec (List.length (Str.split named_props " "))
              (py_len addresses)) as [Hle|Hgt]; [|reflexivity].
  destruct addresses as [l|]; simpl in *.
  - now rewrite assign_props_ok by lia.
  - pose proof (split_length_pos named_props " "). lia.
Qed.

(** C1, the claim as worded, fails when a name is declared twice: the
    count test passes, and the first declared name ends up bound to the
    second address, not to the first. *)
Lemma populate_named_props_repeated_name :
  let names := declared_names "a a" in
  let addresses := AddrList ["x"; "y"] in
  (List.length names <= py_len addresses)%nat
  /\ nth_error names 0 = Some "a"
  /\ nth_error (addr_items addresses) 0 = Some "x"
  /\ populate_named_props "a a" addresses = Ok [("a", "y")]
  /\ Dict.get (Dict.update Dict.empty [("a", "y")]) "a" <> Some "x".
Proof.
  cbv zeta. split; [vm_compute; lia|].
  split; [reflexivity|]. split; [reflexivity|]. split; [reflexivity|].
  vm_compute. discriminate.
Qed.

(** C1 (amended): when the count of declared names is at most the count
    of returned addresses, the names are zipped with the addresses by
    position and assigned in that order into the update, which is merged
    into the binding map overwriting entries of the same name; so a
    declared name is bound to the address at its position, unless the
    same name is declared again further right, in which case the address
    at its last position wins.  When more names are declared than
    addresses were returned, the update is empty and the map stays as it
    was. *)
Theorem populate_named_props_positional :
  forall (named_props : string) (addresses : addr_result) (m : Dict.t),
    let names := declared_names named_props in
    let items := addr_items addresses in
    ((List.length names <= py_len addresses)%nat ->
     populate_named_props named_props addresses
     = Ok (Dict.update Dict.empty (combine names items))
     /\ (forall n,
           Dict.get (Dict.update m (Dict.update Dict.empty (combine names items))) n
           = match Dict.last_assigned (combine names items) n with
             | Some a => Some a
             | None => Dict.get m n
             end)
     /\ (forall i n a,
           nth_error names i = Some n ->
           nth_error items i = Some a ->
           (forall j, (i < j)%nat -> nth_error names j <> Some n) ->
           Dict.get (Dict.update m (Dict.update Dict.empty (combine names items))) n
           = Some a))
    /\ ((py_len addresses < List.length names)%nat ->
        populate_named_props named_props addresses = Ok Dict.empty
        /\ Dict.update m Dict.empty = m).
Proof.
  intros named_props addresses m names items. split.
  - intros Hle. rewrite populate_named_props_eq.
    fold names items. apply Nat.leb_le in Hle. rewrite Hle.
    assert (Hget : forall n,
      Dict.get (Dict.update m (Dict.update Dict.empty (combine names items))) n
      = match Dict.last_assigned (combine names items) n with
        | Some a => Some a
        | None => Dict.get m n
        end).
    { intros n. apply DictFacts.get_update_of_assignments. }
    split; [reflexivity|]. split; [exact Hget|].
    intros i n a Hn Ha Hlast. rewrite Hget.
    now rewrite (DictFacts.last_assigned_combine names items i n a).
  - intros Hgt. rewrite populate_named_props_eq. fold names.
    apply Nat.leb_gt in Hgt. rewrite Hgt. split; reflexivity.
Qed.

Lemma populate_named_props_positional_witness :
  Dict.get
    (Dict.update [("p", "0"); ("b", "9")]
       (Dict.update Dict.empty
          (combine (declared_names "a b") (addr_items (AddrList ["x"; "y"; "z"])))))
    "b" = Some "y"
  /\ populate_named_props "a b c" (AddrList ["x"; "y"]) = Ok Dict.empty.
Proof.
  split.
  - apply (proj2 (proj2 (proj1 (populate_named_props_positional
             "a b" (AddrList ["x"; "y"; "z"]) [("p", "0"); ("b", "9")])
             ltac:(vm_compute; lia))) 1%nat "b" "y" eq_refl eq_refl).
    intros [|[|[|j]]] Hj; try lia; vm_compute; discriminate.
  - apply (proj2 (populate_named_props_positional
             "a b c" (AddrList ["x"; "y"]) [])).
    vm_compute; lia.
Defined.

(** ** Cutting a directive line *)

Module SplitFacts.

Lemma split_from_skip (p r cur sep : string) :
  Str.split_from (String.length p) cur (p +:+ r) sep
  = Str.split_from O cur r sep.
Proof. induction p as [|c p IH]; simpl; [reflexivity | exact IH]. Qed.

Lemma snoc_app (cur : string) (c : ascii) (s : string) :
  Str.snoc cur c +:+ s = cur +:+ String c s.
Proof. unfold Str.snoc. now rewrite StrFacts.app_assoc. Qed.

(** Without an occurrence of the separator there is one field. *)
Lemma split_from_absent (cur s sep : string) :
  Str.index_of s sep = None -> Str.split_from O cur s sep = [cur +:+ s].
Proof.
  revert cur; induction s as [|c s IH]; intros cur H.
  - simpl. now rewrite StrFacts.app_nil_r.
  - apply StrFacts.index_of_none_cons in H as [Hsw Hs].
    cbn [Str.split_from]. rewrite Hsw, (IH _ Hs). now rewrite snoc_app.
Qed.

(** The leftmost occurrence ends the first field, and the scan goes on
    behind it with a fresh field. *)
Lemma split_from_first (cur a b sep : string) :
  sep <> "" ->
  Str.index_of (a +:+ sep +:+ b) sep = Some (String.length a) ->
  Str.split_from O cur (a +:+ sep +:+ b) sep
  = (cur +:+ a) :: Str.split_from O "" b sep.
Proof.
  intros Hne. revert cur; induction a as [|x a IH]; intros cur H.
  - destruct sep as [|c sep]; [congruence|]. simpl in *.
    rewrite StrFacts.char_eqb_refl, StrFacts.startswith_app. simpl.
    now rewrite split_from_skip, StrFacts.app_nil_r.
  - simpl in H. apply StrFacts.index_of_succ_cons in H as [Hsw Hidx].
    change (String x a +:+ sep +:+ b) with (String x (a +:+ sep +:+ b)).
    cbn [Str.split_from]. rewrite Hsw, (IH _ Hidx). now rewrite snoc_app.
Qed.

Lemma split_absent (s sep : string) :
  Str.find s sep = -1 -> Str.split s sep = [s].
Proof.
  intros H. apply StrFacts.find_absent in H.
  unfold Str.split. now rewrite split_from_absent.
Qed.

Lemma split_first (a b sep : string) :
  sep <> "" ->
  Str.find (a +:+ sep +:+ b) sep = Z.of_nat (String.length a) ->
  Str.split (a +:+ sep +:+ b) sep = a :: Str.split b sep.
Proof.
  intros Hne H. apply StrFacts.find_at in H.
  unfold Str.split. now rewrite split_from_first.
Qed.

Lemma skipn_app (a b : string) :
  Spec.skipn (String.length a) (a +:+ b) = b.
Proof. induction a as [|x a IH]; simpl; [now destruct b | exact IH]. Qed.

Lemma substring_app (a b : string) :
  String.substring 0 (String.length a) (a +:+ b) = a.
Proof.
  induction a as [|x a IH]; simpl; [now destruct b | now rewrite IH].
Qed.

(** The spec's cut at the first occurrence. *)
Lemma spec_split_first (a b sep : string) :
  Str.find (a +:+ sep +:+ b) sep = Z.of_nat (String.length a) ->
  Spec.split_first (a +:+ sep +:+ b) sep = (a, Some b).
Proof.
  intros H. apply StrFacts.find_at in H.
  unfold Spec.split_first. rewrite H, substring_app. do 2 f_equal.
  rewrite <- StrFacts.length_app, <- StrFacts.app_assoc.
  apply skipn_app.
Qed.

End SplitFacts.

(** C3, the claim as worded, fails on a line with two delimiters: the
    text right of the second delimiter does not reach the names.  It
    also fails on names separated by two spaces, which declare an empty
    name between them. *)
Lemma directive_second_delimiter_dropped :
  let line := "cmd -> a -> b" +:+ String Char.LF "" in
  directive_named_props line = Some "a"
  /\ Spec.named_props_after_first line = Some "a -> b"
  /\ directive_named_props line <> Spec.named_props_after_first line
  /\ declared_names "a  b" = ["a"; ""; "b"]
  /\ Spec.whitespace_separated_names "a  b" = ["a"; "b"].
Proof.
  cbv zeta. repeat split; try reflexivity. vm_compute. discriminate.
Qed.

(** C3 (amended): a line that is not skipped is cut at every occurrence
    of the delimiter.  The text before the first delimiter, stripped of
    surrounding whitespace and of newlines, is the command.  The text
    between the first delimiter and the second one, or the end of the
    line when there is no second one, stripped the same way, is the
    binding-names text; what follows a second delimiter is ignored.  On a
    line with a single delimiter this is the remainder the spec
    describes.  The names are the fields of that text between single
    space characters. *)
Theorem directive_cut_at_every_delimiter :
  forall line : string,
    (Str.find line "->" = -1 ->
     directive_command line = normalize line
     /\ directive_named_props line = None)
    /\ (forall a b,
          line = a +:+ "->" +:+ b ->
          Str.find line "->" = Z.of_nat (String.length a) ->
          directive_command line = normalize a
          /\ (Str.find b "->" = -1 ->
              directive_named_props line = Some (normalize b)
              /\ Spec.named_props_after_first line = Some (normalize b))
          /\ (forall b1 b2,
                b = b1 +:+ "->" +:+ b2 ->
                Str.find b "->" = Z.of_nat (String.length b1) ->
                directive_named_props line = Some (normalize b1)))
    /\ (forall n rest,
          Str.find (n +:+ " " +:+ rest) " " = Z.of_nat (String.length n) ->
          declared_names (n +:+ " " +:+ rest) = n :: Str.split rest " ").
Proof.
  intros line. split; [|split].
  - intros H. unfold directive_command, directive_named_props.
    now rewrite (SplitFacts.split_absent _ _ H).
  - intros a b -> Hfirst.
    assert (Hsplit : Str.split (a +:+ "->" +:+ b) "->" = a :: Str.split b "->")
      by (apply SplitFacts.split_first; [discriminate | assumption]).
    unfold directive_command, directive_named_props,
      Spec.named_props_after_first.
    rewrite Hsplit. split; [reflexivity|]. split.
    + intros Hb. rewrite (SplitFacts.split_absent _ _ Hb).
      rewrite (SplitFacts.spec_split_first _ _ _ Hfirst). now split.
    + intros b1 b2 -> Hsecond.
      rewrite SplitFacts.split_first by (discriminate || assumption).
      reflexivity.
  - intros n rest H. unfold declared_names.
    rewrite SplitFacts.split_first by (discriminate || assumption).
    rewrite StrFacts.length_app. simpl.
    now replace (0 <? String.length n + S (String.length rest))%nat with true
      by (symmetry; apply Nat.ltb_lt; lia).
Qed.

Lemma directive_cut_at_every_delimiter_witness :
  directive_command ("show x" +:+ String Char.LF "") = "show x"
  /\ directive_command "new-account -> acct pub" = "new-account"
  /\ directive_named_props "new-account -> acct pub" = Some "acct pub"
  /\ directive_named_props "cmd -> a -> b" = Some "a"
  /\ declared_names "acct pub" = "acct" :: Str.split "pub" " ".
Proof.
  split.
  - exact (proj1 (proj1 (directive_cut_at_every_delimiter
                           ("show x" +:+ String Char.LF "")) eq_refl)).
  - destruct (proj1 (proj2 (directive_cut_at_every_delimiter
                              "new-account -> acct pub"))
                "new-account " " acct pub" eq_refl eq_refl)
      as (Hcmd & Hone & _).
    split; [exact Hcmd|]. split; [exact (proj1 (Hone eq_refl))|]. split.
    + destruct (proj1 (proj2 (directive_cut_at_every_delimiter
                                "cmd -> a -> b"))
                  "cmd " " a -> b" eq_refl eq_refl) as (_ & _ & Htwo).
      exact (Htwo " a " " b" eq_refl eq_refl).
    + exact (proj2 (proj2 (directive_cut_at_every_delimiter ""))
               "acct" "pub" eq_refl).
Defined.

(** ** The address pattern matcher *)

Module MatchFacts.

Ltac by_cases_on_ascii c :=
  destruct c as [[] [] [] [] [] [] [] []]; reflexivity.

Lemma lower_idem (c : ascii) : Char.lower (Char.lower c) = Char.lower c.
Proof. by_cases_on_ascii c. Qed.

Lemma is_hex_lower (c : ascii) : Char.is_hex (Char.lower c) = Char.is_hex c.
Proof. by_cases_on_ascii c. Qed.

Lemma eqb_ci_lower (a b : ascii) :
  Char.eqb_ci (Char.lower a) b = Char.eqb_ci a b.
Proof. unfold Char.eqb_ci. now rewrite lower_idem. Qed.

Lemma match_literal_ci_lower (lit s : string) :
  Re.match_literal_ci lit (lower_str s)
  = option_map lower_str (Re.match_literal_ci lit s).
Proof.
  revert s; induction lit as [|b lit IH]; intros s; [reflexivity|].
  destruct s as [|a s]; [reflexivity|]. simpl.
  rewrite eqb_ci_lower. destruct (Char.eqb_ci a b); [apply IH | reflexivity].
Qed.

Lemma take_hex_lower (s : string) :
  Re.take_hex (lower_str s) = lower_str (Re.take_hex s).
Proof.
  induction s as [|c s IH]; [reflexivity|]. simpl.
  rewrite is_hex_lower. destruct (Char.is_hex c); [|reflexivity].
  simpl. now rewrite IH.
Qed.

Lemma is_empty_lower (s : string) :
  Str.is_empty (lower_str s) = Str.is_empty s.
Proof. now destruct s. Qed.

Lemma match_hex_after_lower (label s : string) :
  Re.match_hex_after label (lower_str s)
  = option_map lower_str (Re.match_hex_after label s).
Proof.
  unfold Re.match_hex_after. rewrite match_literal_ci_lower.
  destruct (Re.match_literal_ci label s) as [rest|]; [|reflexivity].
  simpl. rewrite take_hex_lower, is_empty_lower.
  now destruct (Str.is_empty (Re.take_hex rest)).
Qed.

(** A match does not depend on the case of the text. *)
Lemma search_hex_after_lower (label s : string) :
  Re.search_hex_after label (lower_str s)
  = option_map lower_str (Re.search_hex_after label s).
Proof.
  induction s as [|c s IH].
  - cbn [Re.search_hex_after lower_str].
    change EmptyString with (lower_str "") at 1.
    rewrite match_hex_after_lower.
    now destruct (Re.match_hex_after label "").
  - cbn [Re.search_hex_after lower_str].
    change (String (Char.lower c) (lower_str s)) with (lower_str (String c s)).
    rewrite match_hex_after_lower.
    destruct (Re.match_hex_after label (String c s)); [reflexivity | exact IH].
Qed.

Lemma inner_loop (ps : list string) (line : pyline) (acc : list string) :
  fold_left
    (fun addresses p =>
       match Re.search_hex_after p (py_str line) with
       | Some g => addresses ++ [g]
       | None => addresses
       end) ps acc
  = acc ++ flat_map (fun p => opt_list (Re.search_hex_after p (py_str line))) ps.
Proof.
  revert acc; induction ps as [|p ps IH]; intros acc; simpl.
  - now rewrite app_nil_r.
  - rewrite IH. destruct (Re.search_hex_after p (py_str line)); simpl;
      [now rewrite <- app_assoc | reflexivity].
Qed.

Lemma outer_loop (lines : list pyline) (acc : list string) :
  fold_left
    (fun addresses line =>
       fold_left
         (fun addresses p =>
            match Re.search_hex_after p (py_str line) with
            | Some g => addresses ++ [g]
            | None => addresses
            end) address_extract_patterns addresses) lines acc
  = acc ++ flat_map line_addresses lines.
Proof.
  revert acc; induction lines as [|line lines IH]; intros acc;
    cbn [fold_left flat_map].
  - now rewrite app_nil_r.
  - rewrite IH, inner_loop. now rewrite <- app_assoc.
Qed.

Lemma extract_eq (lines : list pyline) :
  extract_output_addresses lines = flat_map line_addresses lines.
Proof. unfold extract_output_addresses. now rewrite outer_loop. Qed.

End MatchFacts.

(** C6: the address list is the concatenation, in the order of the
    output lines, of what each line contributes; a line contributes, in
    the declaration order component, resource, package, account component
    address, public key, the hex token captured by each pattern that
    matches it; matching ignores case; a line that no pattern matches
    contributes nothing; and the line "component: 1a2b" contributes
    "1a2b". *)
Theorem extract_output_addresses_ordered :
  forall cmd_output : list pyline,
    extract_output_addresses cmd_output = flat_map line_addresses cmd_output
    /\ (forall more,
          extract_output_addresses (cmd_output ++ more)
          = extract_output_addresses cmd_output ++ extract_output_addresses more)
    /\ (forall line,
          line_addresses line
          = opt_list (Re.search_hex_after "component: " (py_str line))
            ++ opt_list (Re.search_hex_after "resource: " (py_str line))
            ++ opt_list (Re.search_hex_after "package: " (py_str line))
            ++ opt_list (Re.search_hex_after "account component address: "
                           (py_str line))
            ++ opt_list (Re.search_hex_after "public key: " (py_str line)))
    /\ (forall p s,
          Re.search_hex_after p (lower_str s)
          = option_map lower_str (Re.search_hex_after p s))
    /\ (forall line,
          (forall p, p ∈ address_extract_patterns ->
                     Re.search_hex_after p (py_str line) = None) ->
          extract_output_addresses [line] = [])
    /\ extract_output_addresses [Text "component: 1a2b"] = ["1a2b"]
    /\ extract_output_addresses [Bytes "component: 1a2b"] = ["1a2b"]
    /\ extract_output_addresses
         [Text "Public Key: 0c"; Text "no address here";
          Text "PACKAGE: 01ab RESOURCE: 03cd"]
       = ["0c"; "03cd"; "01ab"].
Proof.
  intros cmd_output. split; [apply MatchFacts.extract_eq|].
  split.
  { intros more. rewrite !MatchFacts.extract_eq. apply flat_map_app. }
  split.
  { intros line. unfold line_addresses. simpl. now rewrite app_nil_r. }
  split; [apply MatchFacts.search_hex_after_lower|].
  split; [|repeat split; reflexivity].
  intros line Hnone. rewrite MatchFacts.extract_eq.
  cbn [flat_map]. rewrite app_nil_r.
  unfold line_addresses, address_extract_patterns. cbn [flat_map].
  rewrite !Hnone by (unfold address_extract_patterns; repeat constructor).
  reflexivity.
Qed.

Lemma extract_output_addresses_ordered_witness :
  extract_output_addresses [Text "compiling: 12 files"] = [].
Proof.
  apply (proj1 (proj2 (proj2 (proj2 (proj2
           (extract_output_addresses_ordered [])))))).
  intros p Hp. unfold address_extract_patterns in Hp.
  repeat (apply elem_of_cons in Hp as [->|Hp]; [reflexivity|]).
  now apply elem_of_nil in Hp.
Defined.

(** ** Which patterns a label line matches *)

Module LabelFacts.

Lemma eqb_ci_refl (a : ascii) : Char.eqb_ci a a = true.
Proof. unfold Char.eqb_ci. apply StrFacts.char_eqb_refl. Qed.

Lemma match_literal_ci_self (label s : string) :
  Re.match_literal_ci label (label +:+ s) = Some s.
Proof.
  induction label as [|b label IH]; simpl; [reflexivity|].
  now rewrite eqb_ci_refl.
Qed.

Lemma mismatch_app (label t s : string) :
  mismatch label t = true -> Re.match_literal_ci label (t +:+ s) = None.
Proof.
  revert t; induction label as [|b label IH]; intros t H; [discriminate|].
  destruct t as [|a t]; [discriminate|]. simpl in *.
  destruct (Char.eqb_ci a b); [now apply IH | reflexivity].
Qed.

Lemma search_skip (label pre s : string) :
  no_start_within label pre = true ->
  Re.search_hex_after label (pre +:+ s) = Re.search_hex_after label s.
Proof.
  induction pre as [|c pre IH]; intros H; [reflexivity|].
  cbn [no_start_within] in H. apply andb_true_iff in H as [Hmis Hrest].
  change (String c pre +:+ s) with (String c (pre +:+ s)).
  cbn [Re.search_hex_after]. unfold Re.match_hex_after.
  change (String c (pre +:+ s)) with (String c pre +:+ s).
  rewrite (mismatch_app _ _ s Hmis). now apply IH.
Qed.

Section Foreign.

(** The characters a text is made of, closed under case folding. *)
Variable allowed : ascii -> bool.
Hypothesis allowed_lower : forall c, allowed (Char.lower c) = allowed c.

Lemma eqb_ci_allowed (a b : ascii) :
  Char.eqb_ci a b = true -> allowed a = allowed b.
Proof.
  unfold Char.eqb_ci. intros H. apply StrFacts.char_eqb_true in H.
  now rewrite <- (allowed_lower a), <- (allowed_lower b), H.
Qed.

(** A label holding a character outside the text's alphabet matches
    nowhere in the text. *)
Lemma match_literal_ci_foreign (label s : string) :
  str_existsb (fun b => negb (allowed b)) label = true ->
  str_forallb allowed s = true ->
  Re.match_literal_ci label s = None.
Proof.
  revert s; induction label as [|b label IH]; intros s Hf Hs;
    [discriminate|].
  destruct s as [|a s]; [reflexivity|]. simpl in *.
  apply andb_true_iff in Hs as [Ha Hs].
  destruct (Char.eqb_ci a b) eqn:E; [|reflexivity].
  apply eqb_ci_allowed in E. rewrite <- E, Ha in Hf. simpl in Hf.
  now apply IH.
Qed.

Lemma search_foreign (label s : string) :
  str_existsb (fun b => negb (allowed b)) label = true ->
  str_forallb allowed s = true ->
  Re.search_hex_after label s = None.
Proof.
  intros Hf. induction s as [|c s IH]; intros Hs.
  - cbn [Re.search_hex_after]. unfold Re.match_hex_after.
    now rewrite match_literal_ci_foreign.
  - cbn [Re.search_hex_after]. unfold Re.match_hex_after.
    rewrite match_literal_ci_foreign by assumption.
    simpl in Hs. apply andb_true_iff in Hs as [_ Hs]. now apply IH.
Qed.

End Foreign.

Lemma take_hex_all (h s : string) :
  str_forallb Char.is_hex h = true ->
  Re.take_hex s = "" ->
  Re.take_hex (h +:+ s) = h.
Proof.
  intros Hh Hs. induction h as [|c h IH]; [exact Hs|].
  simpl in *. apply andb_true_iff in Hh as [Hc Hh].
  now rewrite Hc, IH.
Qed.

Lemma str_forallb_app (f : ascii -> bool) (a b : string) :
  str_forallb f (a +:+ b) = (str_forallb f a && str_forallb f b)%bool.
Proof.
  induction a as [|c a IH]; [reflexivity|]. simpl.
  now rewrite IH, andb_assoc.
Qed.

Lemma str_forallb_impl (f g : ascii -> bool) (s : string) :
  (forall c, f c = true -> g c = true) ->
  str_forallb f s = true -> str_forallb g s = true.
Proof.
  intros Hfg. induction s as [|c s IH]; [reflexivity|]. simpl.
  intros H. apply andb_true_iff in H as [Hc Hs].
  now rewrite (Hfg _ Hc), IH.
Qed.

(** A match found at the very start of the text. *)
Lemma search_here (label s g : string) :
  Re.match_hex_after label s = Some g ->
  Re.search_hex_after label s = Some g.
Proof. intros H. destruct s; cbn [Re.search_hex_after]; now rewrite H. Qed.

Lemma escape_byte_plain (c : ascii) :
  plain c = true -> Repr.escape_byte Char.SQUOTE c = String c "".
Proof.
  destruct c as [[] [] [] [] [] [] [] []]; intros H;
    try discriminate H; reflexivity.
Qed.

Lemma escape_plain (b : string) :
  str_forallb plain b = true -> Repr.escape Char.SQUOTE b = b.
Proof.
  induction b as [|c b IH]; [reflexivity|]. simpl.
  intros H. apply andb_true_iff in H as [Hc Hb].
  now rewrite (escape_byte_plain _ Hc), IH.
Qed.

Lemma contains_plain (b : string) (q : ascii) :
  plain q = false -> str_forallb plain b = true -> Repr.contains b q = false.
Proof.
  intros Hq. induction b as [|c b IH]; [reflexivity|]. simpl.
  intros H. apply andb_true_iff in H as [Hc Hb]. rewrite (IH Hb).
  destruct (Char.eqb c q) eqn:E; [|reflexivity].
  apply StrFacts.char_eqb_true in E. congruence.
Qed.

Lemma bytes_repr_plain (b : string) :
  str_forallb plain b = true ->
  Repr.bytes_repr b = "b'" +:+ b +:+ "'".
Proof.
  intros H. unfold Repr.bytes_repr, Repr.quote_of.
  rewrite (contains_plain b Char.SQUOTE eq_refl H). simpl.
  now rewrite (escape_plain _ H).
Qed.

Lemma is_hex_plain (c : ascii) : Char.is_hex c = true -> plain c = true.
Proof.
  destruct c as [[] [] [] [] [] [] [] []]; intros H;
    try discriminate H; reflexivity.
Qed.

End LabelFacts.

Module AccountLabel.

Lemma hex_or_quote_lower (c : ascii) :
  hex_or_quote (Char.lower c) = hex_or_quote c.
Proof. MatchFacts.by_cases_on_ascii c. Qed.

Lemma token_split (h : string) :
  is_hex_token h = true -> h <> "" /\ str_forallb Char.is_hex h = true.
Proof.
  unfold is_hex_token. intros H. apply andb_true_iff in H as [Hne Hh].
  split; [|exact Hh]. now destruct h.
Qed.

(** On the text of the account_label line, a pattern whose account_label does not
    start inside the account account_label and holds a character that is no
    hex digit finds nothing. *)
Lemma other_pattern_text (p h : string) :
  no_start_within p account_label = true ->
  str_existsb (fun b => negb (Char.is_hex b)) p = true ->
  str_forallb Char.is_hex h = true ->
  Re.search_hex_after p (account_label +:+ h) = None.
Proof.
  intros Hskip Hforeign Hh. rewrite LabelFacts.search_skip by assumption.
  now apply (LabelFacts.search_foreign Char.is_hex MatchFacts.is_hex_lower).
Qed.

Lemma own_pattern_text (h : string) :
  is_hex_token h = true ->
  Re.search_hex_after account_label (account_label +:+ h) = Some h.
Proof.
  intros H. destruct (token_split h H) as [Hne Hh].
  apply LabelFacts.search_here. unfold Re.match_hex_after.
  rewrite LabelFacts.match_literal_ci_self.
  pose proof (LabelFacts.take_hex_all h "" Hh eq_refl) as Ht.
  rewrite StrFacts.app_nil_r in Ht. rewrite Ht.
  now destruct h.
Qed.

Lemma repr_line (h : string) :
  str_forallb Char.is_hex h = true ->
  py_str (Bytes (account_label +:+ h)) = ("b'" +:+ account_label) +:+ h +:+ "'".
Proof.
  intros Hh.
  assert (Hplain : str_forallb plain (account_label +:+ h) = true).
  { rewrite LabelFacts.str_forallb_app. apply andb_true_iff. split.
    - reflexivity.
    - exact (LabelFacts.str_forallb_impl _ _ h LabelFacts.is_hex_plain Hh). }
  unfold py_str. rewrite (LabelFacts.bytes_repr_plain _ Hplain).
  now rewrite !StrFacts.app_assoc.
Qed.

Lemma token_then_quote (h : string) :
  str_forallb Char.is_hex h = true ->
  str_forallb hex_or_quote (h +:+ "'") = true.
Proof.
  intros Hh. rewrite LabelFacts.str_forallb_app. apply andb_true_iff.
  split; [|reflexivity].
  apply (LabelFacts.str_forallb_impl Char.is_hex); [|exact Hh].
  intros c Hc. unfold hex_or_quote. now rewrite Hc.
Qed.

Lemma other_pattern_bytes (p h : string) :
  no_start_within p ("b'" +:+ account_label) = true ->
  str_existsb (fun b => negb (hex_or_quote b)) p = true ->
  str_forallb Char.is_hex h = true ->
  Re.search_hex_after p (py_str (Bytes (account_label +:+ h))) = None.
Proof.
  intros Hskip Hforeign Hh. rewrite repr_line by assumption.
  rewrite LabelFacts.search_skip by assumption.
  apply (LabelFacts.search_foreign hex_or_quote hex_or_quote_lower);
    [assumption | now apply token_then_quote].
Qed.

Lemma own_pattern_bytes (h : string) :
  is_hex_token h = true ->
  Re.search_hex_after account_label (py_str (Bytes (account_label +:+ h))) = Some h.
Proof.
  intros H. destruct (token_split h H) as [Hne Hh].
  rewrite repr_line by assumption.
  rewrite StrFacts.app_assoc.
  rewrite (LabelFacts.search_skip account_label "b'") by reflexivity.
  apply LabelFacts.search_here. unfold Re.match_hex_after.
  rewrite LabelFacts.match_literal_ci_self.
  rewrite (LabelFacts.take_hex_all h "'" Hh eq_refl).
  now destruct h.
Qed.

End AccountLabel.

(** C7, the claim as worded, fails: on a line made of the label
    "account component address: " and a hex token, only the account
    pattern matches, since the component pattern wants a colon right
    after "component"; the line contributes one address. *)
Lemma account_line_single_match :
  let line := "account component address: 1a2b" in
  map (fun p => Re.search_hex_after p line) address_extract_patterns
  = [None; None; None; Some "1a2b"; None]
  /\ extract_output_addresses [Text line] = ["1a2b"]
  /\ extract_output_addresses [Bytes line] = ["1a2b"]
  /\ ~ (1 < List.length (extract_output_addresses [Text line]))%nat.
Proof.
  cbv zeta. repeat split; try reflexivity. vm_compute. lia.
Qed.

(** C7 (amended): a line made of the label "account component address: "
    and a hex token is matched by the account pattern alone and
    contributes that one token, be the line text or bytes.  A line
    contributes several addresses when it holds several labels each
    followed by a hex token, one address per matching pattern in
    declaration order, and equal tokens are not merged. *)
Theorem account_label_matches_one_pattern :
  forall h : string,
    is_hex_token h = true ->
    let line := "account component address: " +:+ h in
    map (fun p => Re.search_hex_after p line) address_extract_patterns
    = [None; None; None; Some h; None]
    /\ extract_output_addresses [Text line] = [h]
    /\ extract_output_addresses [Bytes line] = [h]
    /\ extract_output_addresses [Text "component: 1a resource: 2b"]
       = ["1a"; "2b"]
    /\ extract_output_addresses [Text "Component: 1a Resource: 1a"]
       = ["1a"; "1a"]
    /\ extract_output_addresses
         [Text "account component address: 1a component: 2b"]
       = ["2b"; "1a"].
Proof.
  intros h H line. subst line.
  destruct (AccountLabel.token_split h H) as [Hne Hh].
  change "account component address: " with account_label.
  assert (Htext :
    map (fun p => Re.search_hex_after p (account_label +:+ h))
      address_extract_patterns = [None; None; None; Some h; None]).
  { unfold address_extract_patterns. cbn [map].
    change "account component address: " with account_label.
    rewrite AccountLabel.own_pattern_text by assumption.
    rewrite !AccountLabel.other_pattern_text by (reflexivity || assumption).
    reflexivity. }
  split; [exact Htext|]. split; [|split].
  - rewrite MatchFacts.extract_eq. cbn [flat_map]. rewrite app_nil_r.
    unfold line_addresses. rewrite flat_map_concat_map.
    rewrite <- (map_map (fun p => Re.search_hex_after p _) opt_list).
    cbn [py_str]. rewrite Htext. reflexivity.
  - rewrite MatchFacts.extract_eq. cbn [flat_map]. rewrite app_nil_r.
    unfold line_addresses, address_extract_patterns. cbn [flat_map].
    change "account component address: " with account_label.
    rewrite AccountLabel.own_pattern_bytes by assumption.
    rewrite !AccountLabel.other_pattern_bytes by (reflexivity || assumption).
    reflexivity.
  - repeat split; reflexivity.
Qed.

Lemma account_label_matches_one_pattern_witness :
  extract_output_addresses [Bytes "account component address: 06c4f0"]
  = ["06c4f0"].
Proof.
  exact (proj1 (proj2 (proj2
           (account_label_matches_one_pattern "06c4f0" eq_refl)))).
Defined.

(** ** The manifest template processor *)

Lemma substitute_line_snoc (line : string) (m : Dict.t) (k v : string) :
  substitute_line line (m ++ [(k, v)])
  = Str.replace (substitute_line line m) (placeholder k) v.
Proof. unfold substitute_line. now rewrite fold_left_app. Qed.

Lemma substitute_line_cons (line : string) (k v : string) (m : Dict.t) :
  substitute_line line ((k, v) :: m)
  = substitute_line (Str.replace line (placeholder k) v) m.
Proof. reflexivity. Qed.

(** A line without any placeholder of a bound name is left as it is. *)
Lemma substitute_line_untouched (line : string) (m : Dict.t) :
  Forall (fun kv => Str.find line (placeholder (fst kv)) = -1) m ->
  substitute_line line m = line.
Proof.
  induction 1 as [|[k v] m Hk _ IH]; [reflexivity|].
  rewrite substitute_line_cons. simpl in Hk.
  rewrite StrFacts.replace_absent
    by (apply StrFacts.placeholder_nonempty || assumption).
  exact IH.
Qed.

Lemma readlines_from_not_nil (cur s : string) :
  cur <> "" \/ s <> "" -> Str.readlines_from cur s <> [].
Proof.
  revert cur; induction s as [|c s IH]; intros cur H; simpl.
  - destruct H as [H|H]; [|congruence]. now destruct cur.
  - destruct (Char.eqb c Char.LF); [discriminate|].
    apply IH. left. unfold Str.snoc. now destruct cur.
Qed.

Lemma readlines_not_nil (content : string) :
  content <> "" -> Str.readlines content <> [].
Proof. intros H. apply readlines_from_not_nil. now right. Qed.

Lemma universal_newlines_not_empty (content : string) :
  content <> "" -> Str.universal_newlines content <> "".
Proof.
  destruct content as [|c s]; [congruence|]. intros _.
  unfold Str.universal_newlines. cbn [Str.universal_newlines_from].
  destruct (Char.eqb c Char.CR); [discriminate|].
  destruct (Char.eqb c Char.LF); discriminate.
Qed.

Lemma text_lines_not_nil (content : string) :
  content <> "" -> Str.text_lines content <> [].
Proof.
  intros H. apply readlines_not_nil.
  now apply universal_newlines_not_empty.
Qed.

(** Reading a text into lines and writing the lines back gives the text
    with its newlines translated. *)
Lemma readlines_from_concat (cur s : string) :
  Str.concat (Str.readlines_from cur s) = cur +:+ s.
Proof.
  revert cur; induction s as [|c s IH]; intros cur.
  - cbn [Str.readlines_from]. destruct cur; [reflexivity|].
    cbn [Str.is_empty Str.concat fold_right].
    now rewrite !StrFacts.app_nil_r.
  - cbn [Str.readlines_from]. destruct (Char.eqb c Char.LF).
    + cbn [Str.concat fold_right]. fold (Str.concat (Str.readlines_from "" s)).
      rewrite IH. cbn [String.append]. now rewrite SplitFacts.snoc_app.
    + rewrite IH. now rewrite SplitFacts.snoc_app.
Qed.

Lemma readlines_concat (content : string) :
  Str.concat (Str.readlines content) = content.
Proof. exact (readlines_from_concat "" content). Qed.

Lemma text_lines_concat (content : string) :
  Str.concat (Str.text_lines content) = Str.universal_newlines content.
Proof. apply readlines_concat. Qed.

Lemma universal_newlines_from_lacks_cr (after_cr : bool) (s : string) :
  lacks Char.CR (Str.universal_newlines_from after_cr s) = true.
Proof.
  revert after_cr; induction s as [|c s IH]; intros after_cr; [reflexivity|].
  cbn [Str.universal_newlines_from].
  destruct (Char.eqb c Char.CR) eqn:Ecr.
  - unfold lacks in *. cbn [str_forallb]. now rewrite IH.
  - destruct (Char.eqb c Char.LF) eqn:Elf.
    + destruct after_cr; [apply IH|].
      unfold lacks in *. cbn [str_forallb]. now rewrite IH.
    + unfold lacks in *. cbn [str_forallb]. now rewrite Ecr, IH.
Qed.

Lemma universal_newlines_id (s : string) :
  lacks Char.CR s = true -> Str.universal_newlines s = s.
Proof.
  unfold Str.universal_newlines, lacks.
  induction s as [|c s IH]; [reflexivity|].
  cbn [str_forallb Str.universal_newlines_from]. intros H.
  apply andb_true_iff in H as [Hc Hs]. apply negb_true_iff in Hc.
  rewrite Hc. destruct (Char.eqb c Char.LF) eqn:Elf.
  - apply StrFacts.char_eqb_true in Elf. subst c. now rewrite (IH Hs).
  - now rewrite (IH Hs).
Qed.




Section MonadFacts.

Context {T : Type}.
Implicit Types (st : state T).

Lemma bind_ok {A B} (m : M T A) (k : A -> M T B) st a st' :
  m st = (Ok a, st') -> bind m k st = k a st'.
Proof. intros H. unfold bind. now rewrite H. Qed.

Lemma bind_raise {A B} (m : M T A) (k : A -> M T B) st e st' :
  m st = (Raise e, st') -> bind m k st = (Raise e, st').
Proof. intros H. unfold bind. now rewrite H. Qed.

Lemma try_ok {A} (m : M T A) (h : exn -> M T A) st a st' :
  m st = (Ok a, st') -> try_except m h st = (Ok a, st').
Proof. intros H. unfold try_except. now rewrite H. Qed.

Lemma try_raise {A} (m : M T A) (h : exn -> M T A) st e st' :
  m st = (Raise e, st') -> try_except m h st = h e st'.
Proof. intros H. unfold try_except. now rewrite H. Qed.

Lemma emit_eq (e : event) st :
  emit e st = (Ok tt, mkState (files st) (tool st) (trace st ++ [e])).
Proof. reflexivity. Qed.

Lemma log_eq (lvl : level) (msg : string) st :
  log lvl msg st
  = (Ok tt, mkState (files st) (tool st) (trace st ++ [EvLog lvl msg])).
Proof. reflexivity. Qed.

Lemma open_readlines_some st path content :
  files st !! path = Some content ->
  open_readlines path st
  = (Ok (Str.text_lines content),
     mkState (files st) (tool st) (trace st ++ [EvRead path])).
Proof.
  intros H. unfold open_readlines, bind, emit. cbn [files tool trace].
  now rewrite H.
Qed.

Lemma open_readlines_none st path :
  files st !! path = None ->
  open_readlines path st
  = (Raise (no_such_file path),
     mkState (files st) (tool st) (trace st ++ [EvRead path])).
Proof.
  intros H. unfold open_readlines, bind, emit. cbn [files tool trace].
  now rewrite H.
Qed.

Variable writable : string -> bool.

Lemma open_writelines_ok st path lines :
  writable path = true ->
  open_writelines writable path lines st
  = (Ok tt,
     mkState (<[path := Str.concat lines]> (files st)) (tool st)
       (trace st ++ [EvWrite path])).
Proof.
  intros H. unfold open_writelines, bind, emit. cbn [files tool trace].
  now rewrite H.
Qed.

Lemma open_writelines_denied st path lines :
  writable path = false ->
  open_writelines writable path lines st
  = (Raise (permission_denied path),
     mkState (files st) (tool st) (trace st ++ [EvWrite path])).
Proof.
  intros H. unfold open_writelines, bind, emit. cbn [files tool trace].
  now rewrite H.
Qed.

End MonadFacts.

Section ManifestFacts.

Context {T : Type}.
Variable writable : string -> bool.

Implicit Types (st : state T) (m : Dict.t).

Lemma do_run_manifest_no_name cmd m st :
  Re.search_word_rtm true cmd = None ->
  do_run_manifest writable cmd m st = (Ok tt, st).
Proof. intros H. unfold do_run_manifest. now rewrite H. Qed.

Lemma do_run_manifest_missing cmd m st f :
  Re.search_word_rtm true cmd = Some f ->
  files st !! f = None ->
  do_run_manifest writable cmd m st
  = (Ok tt,
     mkState (files st) (tool st)
       (trace st ++
          [EvRead f;
           EvLog ERROR ("failed to process manifest file due to "
                        +:+ exn_str (no_such_file f))])).
Proof.
  intros Hf Hnone. unfold do_run_manifest. rewrite Hf.
  rewrite (try_raise _ _ _ _ _
             (bind_raise _ _ _ _ _ (open_readlines_none st f Hnone))).
  rewrite log_eq. cbn [files tool trace]. now rewrite <- app_assoc.
Qed.

Lemma do_run_manifest_empty cmd m st f content :
  Re.search_word_rtm true cmd = Some f ->
  files st !! f = Some content ->
  Str.text_lines content = [] ->
  do_run_manifest writable cmd m st
  = (Ok tt, mkState (files st) (tool st) (trace st ++ [EvRead f])).
Proof.
  intros Hf Hsome Hempty. unfold do_run_manifest. rewrite Hf.
  erewrite try_ok; [reflexivity|].
  rewrite (bind_ok _ _ _ _ _ (open_readlines_some st f content Hsome)).
  rewrite Hempty. reflexivity.
Qed.

Lemma do_run_manifest_written cmd m st f content :
  Re.search_word_rtm true cmd = Some f ->
  files st !! f = Some content ->
  Str.text_lines content <> [] ->
  writable (f +:+ ".dat") = true ->
  do_run_manifest writable cmd m st
  = (Ok tt,
     mkState
       (<[f +:+ ".dat" :=
            Str.concat (map (fun line => substitute_line line m)
                          (Str.text_lines content))]> (files st))
       (tool st)
       (trace st ++ [EvRead f; EvWrite (f +:+ ".dat")])).
Proof.
  intros Hf Hsome Hlines Hw. unfold do_run_manifest. rewrite Hf.
  erewrite try_ok; [reflexivity|].
  rewrite (bind_ok _ _ _ _ _ (open_readlines_some st f content Hsome)).
  destruct (Str.text_lines content) as [|l ls]; [congruence|].
  cbn [List.length Nat.ltb Nat.leb map].
  rewrite open_writelines_ok by assumption.
  cbn [files tool trace]. now rewrite <- app_assoc.
Qed.

Lemma do_run_manifest_unwritable cmd m st f content :
  Re.search_word_rtm true cmd = Some f ->
  files st !! f = Some content ->
  Str.text_lines content <> [] ->
  writable (f +:+ ".dat") = false ->
  do_run_manifest writable cmd m st
  = (Ok tt,
     mkState (files st) (tool st)
       (trace st ++
          [EvRead f; EvWrite (f +:+ ".dat");
           EvLog ERROR ("failed to process manifest file due to "
                        +:+ exn_str (permission_denied (f +:+ ".dat")))])).
Proof.
  intros Hf Hsome Hlines Hw. unfold do_run_manifest. rewrite Hf.
  erewrite try_raise.
  2:{ rewrite (bind_ok _ _ _ _ _ (open_readlines_some st f content Hsome)).
      destruct (Str.text_lines content) as [|l ls]; [congruence|].
      cbn [List.length Nat.ltb Nat.leb map].
      now apply open_writelines_denied. }
  rewrite log_eq. cbn [files tool trace]. now rewrite <- !app_assoc.
Qed.

End ManifestFacts.

(** ** Manifest mode always names a manifest file *)

Module ManifestName.

Lemma eqb_eqb_ci (a b : ascii) :
  Char.eqb a b = true -> Char.eqb_ci a b = true.
Proof.
  intros H. apply StrFacts.char_eqb_true in H. subst.
  apply LabelFacts.eqb_ci_refl.
Qed.

Lemma ext_rtm_ci (t e : string) :
  Re.ext_rtm false t = Some e -> Re.ext_rtm true t = Some e.
Proof.
  unfold Re.ext_rtm. destruct t as [|c0 [|c1 [|c2 [|c3 t]]]]; try discriminate.
  destruct (Char.eqb c0 ".") eqn:E0; [|discriminate].
  destruct (Char.eqb c1 "r") eqn:E1; [|discriminate].
  destruct (Char.eqb c2 "t") eqn:E2; [|discriminate].
  destruct (Char.eqb c3 "m") eqn:E3; [|discriminate].
  simpl. intros H.
  now rewrite (eqb_eqb_ci _ _ E1), (eqb_eqb_ci _ _ E2), (eqb_eqb_ci _ _ E3).
Qed.

Lemma match_word_rtm_ci (acc t g : string) :
  Re.match_word_rtm false acc t = Some g ->
  Re.match_word_rtm true acc t = Some g.
Proof.
  revert acc; induction t as [|c t IH]; intros acc H; [discriminate|].
  cbn [Re.match_word_rtm] in *.
  destruct (Char.is_word c); [now apply IH|].
  destruct (Str.is_empty acc); [discriminate|].
  destruct (Re.ext_rtm false (String c t)) as [e|] eqn:E; [|discriminate].
  now rewrite (ext_rtm_ci _ _ E).
Qed.

Lemma search_word_rtm_here (ci : bool) (r g : string) :
  Re.match_word_rtm ci "" r = Some g ->
  Re.search_word_rtm ci r = Some g.
Proof. intros H. destruct r; cbn [Re.search_word_rtm]; now rewrite H. Qed.

Lemma search_word_rtm_suffix (ci : bool) (pre r : string) :
  is_Some (Re.match_word_rtm ci "" r) ->
  is_Some (Re.search_word_rtm ci (pre +:+ r)).
Proof.
  intros [g Hg]. induction pre as [|c pre IH].
  - exists g. now apply search_word_rtm_here.
  - change (String c pre +:+ r) with (String c (pre +:+ r)).
    cbn [Re.search_word_rtm].
    destruct (Re.match_word_rtm ci "" (String c (pre +:+ r)));
      [now eexists | exact IH].
Qed.

Lemma match_any_inv (consumed : bool) (r : string) :
  Re.match_any_then_word_rtm consumed r = true ->
  exists pre r', r = pre +:+ r'
                 /\ is_Some (Re.match_word_rtm false "" r').
Proof.
  revert consumed; induction r as [|c r IH]; intros consumed H;
    [discriminate|].
  cbn [Re.match_any_then_word_rtm] in H.
  apply orb_true_iff in H as [H|H].
  - apply andb_true_iff in H as [_ H]. apply bool_decide_eq_true in H.
    now exists "", (String c r).
  - apply andb_true_iff in H as [_ H].
    destruct (IH _ H) as (pre & r' & -> & Hm).
    now exists (String c pre), r'.
Qed.

Lemma strip_prefix_inv (p s r : string) :
  Re.strip_prefix p s = Some r -> s = p +:+ r.
Proof.
  revert s; induction p as [|b p IH]; intros s H; simpl in *.
  - now injection H as ->.
  - destruct s as [|a s]; [discriminate|].
    destruct (Char.eqb a b) eqn:E; [|discriminate].
    apply StrFacts.char_eqb_true in E. subst b. now rewrite (IH _ H).
Qed.

Lemma search_run_manifest_inv (s : string) :
  Re.search_run_manifest s = true ->
  exists pre r', s = pre +:+ r'
                 /\ is_Some (Re.match_word_rtm false "" r').
Proof.
  assert (Hhere : forall s r,
    Re.strip_prefix "run " s = Some r ->
    Re.match_any_then_word_rtm false r = true ->
    exists pre r', s = pre +:+ r'
                   /\ is_Some (Re.match_word_rtm false "" r')).
  { intros s0 r Hs Hm. apply strip_prefix_inv in Hs. subst s0.
    destruct (match_any_inv _ _ Hm) as (pre & r' & -> & Hr').
    exists ("run " +:+ pre), r'. now rewrite StrFacts.app_assoc. }
  induction s as [|c s IH]; intros H; cbn [Re.search_run_manifest] in H.
  - destruct (Re.strip_prefix "run " "") as [r|] eqn:E; [|discriminate].
    destruct (Re.match_any_then_word_rtm false r) eqn:Em; [|discriminate].
    exact (Hhere _ _ E Em).
  - destruct (Re.strip_prefix "run " (String c s)) as [r|] eqn:E.
    + destruct (Re.match_any_then_word_rtm false r) eqn:Em.
      * exact (Hhere _ _ E Em).
      * destruct (IH H) as (pre & r' & -> & Hr').
        now exists (String c pre), r'.
    + destruct (IH H) as (pre & r' & -> & Hr').
      now exists (String c pre), r'.
Qed.

(** A command taken for a manifest run holds a manifest file name. *)
Lemma manifest_mode_has_file (cmd : string) :
  Re.search_run_manifest cmd = true ->
  is_Some (Re.search_word_rtm true cmd).
Proof.
  intros H. destruct (search_run_manifest_inv _ H) as (pre & r' & -> & [g Hg]).
  apply search_word_rtm_suffix. exists g. now apply match_word_rtm_ci.
Qed.

End ManifestName.

(** ** Sample worlds *)

(** C5, the claim as worded, fails: an empty manifest can be read, yet no
    [.dat] file is written for it; and with one bound name a prefix of
    another, the placeholder of the longer name is not replaced by its
    address. *)
Lemma manifest_empty_not_written :
  let st := Sample.start [("tx.rtm", "")] tt in
  let st' := snd (do_run_manifest Sample.always_writable "run tx.rtm"
                    [("a", "1")] st) in
  files st !! "tx.rtm" = Some ""
  /\ files st' !! "tx.rtm.dat" = None
  /\ files st' = files st
  /\ substitute_line "$ab" [("a", "1"); ("ab", "2")] = "1b".
Proof. cbv zeta. repeat split; vm_compute; reflexivity. Qed.

(** C5 (amended): for a manifest that can be read and holds at least one
    line, each line, as the text mode of [open] gives it (a CR LF and a
    lone CR of the file arrive as LF), is rewritten by taking the bound
    names in map order and replacing, for each in turn, every occurrence
    of its placeholder in the line as rewritten so far; the rewritten
    lines are written to the file named after the manifest with [.dat]
    appended, replacing its content, when that file can be written.  A
    line that holds no placeholder of a bound name is kept verbatim.  For
    a manifest without lines nothing is written.  The line "$a $a $b"
    under a then b becomes "1 1 2". *)
Theorem do_run_manifest_rewrites_lines :
  forall (T : Type) (writable : string -> bool) (cmd : string) (m : Dict.t)
         (st : state T) (f content : string),
    Re.search_word_rtm true cmd = Some f ->
    files st !! f = Some content ->
    (content <> "" ->
     writable (f +:+ ".dat") = true ->
     do_run_manifest writable cmd m st
     = (Ok tt,
        mkState
          (<[f +:+ ".dat" :=
               Str.concat (map (fun line => substitute_line line m)
                             (Str.text_lines content))]> (files st))
          (tool st)
          (trace st ++ [EvRead f; EvWrite (f +:+ ".dat")])))
    /\ (content = "" ->
        do_run_manifest writable cmd m st
        = (Ok tt, mkState (files st) (tool st) (trace st ++ [EvRead f])))
    /\ Str.concat (Str.text_lines content) = Str.universal_newlines content
    /\ lacks Char.CR (Str.universal_newlines content) = true
    /\ (lacks Char.CR content = true ->
        Str.universal_newlines content = content)
    /\ (forall line, substitute_line line [] = line)
    /\ (forall line names k v,
          substitute_line line (names ++ [(k, v)])
          = Str.replace (substitute_line line names) (placeholder k) v)
    /\ (forall a b k v,
          Str.find (a +:+ placeholder k +:+ b) (placeholder k)
          = Z.of_nat (String.length a) ->
          Str.replace (a +:+ placeholder k +:+ b) (placeholder k) v
          = a +:+ v +:+ Str.replace b (placeholder k) v)
    /\ (forall line,
          Forall (fun kv => Str.find line (placeholder (fst kv)) = -1) m ->
          substitute_line line m = line)
    /\ substitute_line "$a $a $b" [("a", "1"); ("b", "2")] = "1 1 2".
Proof.
  intros T writable cmd m st f content Hf Hsome. split.
  { intros Hne Hw. apply (do_run_manifest_written writable cmd m st f content);
      try assumption. now apply text_lines_not_nil. }
  split.
  { intros ->. now apply (do_run_manifest_empty writable cmd m st f ""). }
  split; [apply text_lines_concat|].
  split; [apply universal_newlines_from_lacks_cr|].
  split; [apply universal_newlines_id|].
  split; [reflexivity|].
  split; [intros line names k v; apply substitute_line_snoc|].
  split.
  { intros a b k v. apply StrFacts.replace_first, StrFacts.placeholder_nonempty. }
  split; [intros line; apply substitute_line_untouched | reflexivity].
Qed.

Lemma do_run_manifest_rewrites_lines_witness :
  files
    (snd (do_run_manifest Sample.always_writable "run transfer.rtm"
            [("acct", "02ab"); ("pub", "03cd")]
            (Sample.start
               [("transfer.rtm",
                 "CALL $acct $acct" +:+ Sample.CRLF +:+ "KEY $pub $other"
                 +:+ Sample.CR +:+ "END")]
               tt)))
  !! "transfer.rtm.dat"
  = Some ("CALL 02ab 02ab" +:+ Sample.NL +:+ "KEY 03cd $other"
          +:+ Sample.NL +:+ "END").
Proof.
  rewrite (proj1 (do_run_manifest_rewrites_lines unit Sample.always_writable
             "run transfer.rtm" [("acct", "02ab"); ("pub", "03cd")]
             (Sample.start
                [("transfer.rtm",
                  "CALL $acct $acct" +:+ Sample.CRLF +:+ "KEY $pub $other"
                  +:+ Sample.CR +:+ "END")]
                tt)
             "transfer.rtm"
             ("CALL $acct $acct" +:+ Sample.CRLF +:+ "KEY $pub $other"
              +:+ Sample.CR +:+ "END")
             eq_refl eq_refl)
             ltac:(discriminate) eq_refl).
  reflexivity.
Defined.

(** ** The command invoker *)

Section InvokerFacts.

Context {T : Type}.
Variable resim : T -> list string -> proc * T.
Variable writable : string -> bool.

Implicit Types (st : state T) (m : Dict.t).

Lemma subprocess_run_exit_zero st argv out err t' :
  resim (tool st) argv = (Exited 0 out err, t') ->
  subprocess_run resim argv st
  = (Ok out, mkState (files st) t' (trace st ++ [EvSpawn argv])).
Proof.
  intros H. unfold subprocess_run, bind, emit. cbn [files tool trace].
  now rewrite H.
Qed.

Lemma subprocess_run_exit_nonzero st argv rc out err t' :
  resim (tool st) argv = (Exited rc out err, t') ->
  rc <> 0 ->
  subprocess_run resim argv st
  = (Raise (CalledProcessError rc err),
     mkState (files st) t' (trace st ++ [EvSpawn argv])).
Proof.
  intros H Hrc. unfold subprocess_run, bind, emit. cbn [files tool trace].
  rewrite H. apply Z.eqb_neq in Hrc. now rewrite Hrc.
Qed.

Lemma subprocess_run_not_started st argv e t' :
  resim (tool st) argv = (NotStarted e, t') ->
  subprocess_run resim argv st
  = (Raise e, mkState (files st) t' (trace st ++ [EvSpawn argv])).
Proof.
  intros H. unfold subprocess_run, bind, emit. cbn [files tool trace].
  now rewrite H.
Qed.

(** *** Generic mode *)

Lemma execute_exit_zero cmd m st out err t' :
  Re.search_run_manifest cmd = false ->
  resim (tool st) (argv_of cmd m) = (Exited 0 out err, t') ->
  execute resim writable cmd m st
  = (Ok (AddrList
           (extract_output_addresses (map Bytes (Str.splitlines out)))),
     mkState (files st) t'
       (trace st ++ [EvLog INFO (">>> " +:+ cmd); EvSpawn (argv_of cmd m)])).
Proof.
  intros Hmode Hrun. unfold execute. rewrite Hmode.
  erewrite try_ok; [reflexivity|].
  rewrite (bind_ok _ _ _ _ _ (log_eq INFO _ st)).
  erewrite bind_ok
    by (apply (subprocess_run_exit_zero _ _ out err t');
        cbn [files tool trace]; exact Hrun).
  cbn [files tool trace]. unfold ret. now rewrite <- app_assoc.
Qed.

Lemma execute_exit_nonzero cmd m st rc out err t' :
  Re.search_run_manifest cmd = false ->
  resim (tool st) (argv_of cmd m) = (Exited rc out err, t') ->
  rc <> 0 ->
  execute resim writable cmd m st
  = (Ok EmptyMapping,
     mkState (files st) t'
       (trace st ++ [EvLog INFO (">>> " +:+ cmd); EvSpawn (argv_of cmd m);
                     failure_record cmd err])).
Proof.
  intros Hmode Hrun Hrc. unfold execute. rewrite Hmode.
  erewrite try_raise.
  2:{ rewrite (bind_ok _ _ _ _ _ (log_eq INFO _ st)).
      erewrite bind_raise; [reflexivity|].
      apply (subprocess_run_exit_nonzero _ _ rc out err t');
        cbn [files tool trace]; assumption. }
  unfold on_called_process_error.
  rewrite (bind_ok _ _ _ _ _ (log_eq ERROR _ _)).
  cbn [files tool trace]. unfold ret, failure_record.
  now rewrite <- !app_assoc.
Qed.

Lemma execute_not_started cmd m st e t' :
  Re.search_run_manifest cmd = false ->
  resim (tool st) (argv_of cmd m) = (NotStarted e, t') ->
  is_called_process_error e = false ->
  execute resim writable cmd m st
  = (Raise e,
     mkState (files st) t'
       (trace st ++ [EvLog INFO (">>> " +:+ cmd); EvSpawn (argv_of cmd m)])).
Proof.
  intros Hmode Hrun He. unfold execute. rewrite Hmode.
  erewrite try_raise.
  2:{ rewrite (bind_ok _ _ _ _ _ (log_eq INFO _ st)).
      erewrite bind_raise; [reflexivity|].
      apply subprocess_run_not_started; cbn [files tool trace]; exact Hrun. }
  cbn [files tool trace]. rewrite <- app_assoc.
  destruct e; try discriminate He; reflexivity.
Qed.

(** *** Manifest mode *)

Lemma do_run_manifest_effects cmd m st f :
  Re.search_word_rtm true cmd = Some f ->
  exists st',
    do_run_manifest writable cmd m st = (Ok tt, st')
    /\ tool st' = tool st
    /\ (files st' = files st
        \/ exists content,
             files st !! f = Some content
             /\ files st'
                = <[f +:+ ".dat" :=
                      Str.concat (map (fun line => substitute_line line m)
                                    (Str.text_lines content))]> (files st))
    /\ exists evs,
         trace st' = trace st ++ EvRead f :: evs
         /\ Forall (manifest_event f) evs.
Proof.
  intros Hf. destruct (files st !! f) as [content|] eqn:Hfile.
  - destruct (Str.text_lines content) as [|l ls] eqn:Hlines.
    + eexists. split;
        [exact (do_run_manifest_empty writable cmd m st f content Hf Hfile Hlines)|].
      cbn [files tool trace]. split; [reflexivity|]. split; [now left|].
      exists []. split; [reflexivity | constructor].
    + assert (Hne : Str.text_lines content <> []) by (rewrite Hlines; discriminate).
      destruct (writable (f +:+ ".dat")) eqn:Hw.
      * eexists. split;
          [exact (do_run_manifest_written writable cmd m st f content
                    Hf Hfile Hne Hw)|].
        cbn [files tool trace]. split; [reflexivity|].
        split; [right; now exists content|].
        eexists. split; [reflexivity|].
        constructor; [now left | constructor].
      * eexists. split;
          [exact (do_run_manifest_unwritable writable cmd m st f content
                    Hf Hfile Hne Hw)|].
        cbn [files tool trace]. split; [reflexivity|]. split; [now left|].
        eexists. split; [reflexivity|].
        constructor; [now left|].
        constructor; [right; now eexists | constructor].
  - eexists. split;
      [exact (do_run_manifest_missing writable cmd m st f Hf Hfile)|].
    cbn [files tool trace]. split; [reflexivity|]. split; [now left|].
    eexists. split; [reflexivity|].
    constructor; [right; now eexists | constructor].
Qed.

Lemma execute_manifest cmd m st :
  Re.search_run_manifest cmd = true ->
  execute resim writable cmd m st
  = (Ok EmptyMapping, snd (do_run_manifest writable cmd m st)).
Proof.
  intros Hmode. unfold execute. rewrite Hmode.
  destruct (ManifestName.manifest_mode_has_file _ Hmode) as [f Hf].
  destruct (do_run_manifest_effects cmd m st f Hf) as (st' & Hrun & _).
  rewrite (bind_ok _ _ _ _ _ Hrun). now rewrite Hrun.
Qed.

End InvokerFacts.

(** C10: a command taken for a manifest run names a manifest file in its
    raw text; the invoker returns the empty mapping without raising; the
    tool is not run, so the tool's state is untouched, no spawn is traced
    and the outcome is the same whatever the tool would do; the command
    text does not go through the substitution engine, the file opened
    being the one named in the text as written; the file system changes
    at most at the [.dat] file of that manifest; and apart from reading
    the manifest and writing that file, the only trace is the record of a
    failed read or write. *)
Theorem execute_manifest_mode_frame :
  forall (T : Type) (resim : T -> list string -> proc * T)
         (writable : string -> bool) (cmd : string) (m : Dict.t)
         (st : state T),
    Re.search_run_manifest cmd = true ->
    exists f st',
      Re.search_word_rtm true cmd = Some f
      /\ execute resim writable cmd m st = (Ok EmptyMapping, st')
      /\ (forall resim', execute resim' writable cmd m st = (Ok EmptyMapping, st'))
      /\ tool st' = tool st
      /\ (files st' = files st
          \/ exists content,
               files st !! f = Some content
               /\ files st'
                  = <[f +:+ ".dat" :=
                        Str.concat (map (fun line => substitute_line line m)
                                      (Str.text_lines content))]> (files st))
      /\ (exists evs,
            trace st' = trace st ++ EvRead f :: evs
            /\ Forall (manifest_event f) evs
            /\ forall argv, EvSpawn argv ∉ EvRead f :: evs).
Proof.
  intros T resim writable cmd m st Hmode.
  destruct (ManifestName.manifest_mode_has_file _ Hmode) as [f Hf].
  destruct (do_run_manifest_effects writable cmd m st f Hf)
    as (st' & Hrun & Htool & Hfiles & evs & Htrace & Hevs).
  exists f, st'. split; [exact Hf|].
  assert (Hexec : forall r, execute r writable cmd m st = (Ok EmptyMapping, st')).
  { intros r. rewrite execute_manifest by assumption. now rewrite Hrun. }
  split; [apply Hexec|]. split; [exact Hexec|]. split; [exact Htool|].
  split; [exact Hfiles|].
  exists evs. split; [exact Htrace|]. split; [exact Hevs|].
  intros argv Hin. apply elem_of_cons in Hin as [Hin|Hin]; [discriminate|].
  rewrite Forall_forall in Hevs. destruct (Hevs _ Hin) as [He|[msg He]];
    discriminate.
Qed.

Lemma execute_manifest_mode_frame_witness :
  exists st',
    Re.search_word_rtm true "run now $a.rtm" = Some "a.rtm"
    /\ execute Sample.ledger_tool Sample.always_writable "run now $a.rtm"
         [("a", "tx")]
         (Sample.start [("a.rtm", "PAY $a"); ("tx.rtm", "OTHER")] O)
       = (Ok EmptyMapping, st')
    /\ tool st' = O.
Proof.
  destruct (execute_manifest_mode_frame nat Sample.ledger_tool
              Sample.always_writable "run now $a.rtm" [("a", "tx")]
              (Sample.start [("a.rtm", "PAY $a"); ("tx.rtm", "OTHER")] O)
              eq_refl)
    as (f & st' & Hf & Hexec & _ & Htool & _).
  exists st'. split; [reflexivity|]. split; assumption.
Defined.

(** ** The directive interpreter *)

Section RunFacts.

Context {T : Type}.
Variable resim : T -> list string -> proc * T.
Variable writable : string -> bool.

Implicit Types (st : state T) (m : Dict.t).

Lemma run_directive_eq command m st :
  run_directive resim writable command m st
  = match execute resim writable (directive_command command) m st with
    | (Ok addresses, st') =>
        (Ok (Dict.update m (directive_update command addresses)), st')
    | (Raise e, st') => (Raise e, st')
    end.
Proof.
  unfold run_directive, directive_update, bind.
  destruct (execute resim writable (directive_command command) m st)
    as [[addresses|e] st']; [|reflexivity].
  destruct (directive_named_props command) as [named_props|]; [|reflexivity].
  unfold lift. now rewrite populate_named_props_eq.
Qed.

Lemma run_directives_cons command rest m st :
  is_skipped command = false ->
  run_directives resim writable (command :: rest) m st
  = match run_directive resim writable command m st with
    | (Ok m', st') => run_directives resim writable rest m' st'
    | (Raise e, st') => (Raise e, st')
    end.
Proof. intros H. cbn [run_directives]. now rewrite H. Qed.

Lemma run_directives_skip command rest m st :
  is_skipped command = true ->
  run_directives resim writable (command :: rest) m st
  = run_directives resim writable rest m st.
Proof. intros H. cbn [run_directives]. now rewrite H. Qed.

Lemma run_directives_app l1 l2 m st :
  run_directives resim writable (l1 ++ l2) m st
  = match run_directives resim writable l1 m st with
    | (Ok m1, st1) => run_directives resim writable l2 m1 st1
    | (Raise e, st1) => (Raise e, st1)
    end.
Proof.
  revert m st; induction l1 as [|command l1 IH]; intros m st.
  - reflexivity.
  - change ((command :: l1) ++ l2) with (command :: (l1 ++ l2)).
    destruct (is_skipped command) eqn:Hs.
    + rewrite !run_directives_skip by assumption. apply IH.
    + rewrite !run_directives_cons by assumption.
      destruct (run_directive resim writable command m st) as [[m'|e] st'];
        [apply IH | reflexivity].
Qed.


(** *** The binding map only grows *)

Lemma run_directive_map command m st m' st' :
  run_directive resim writable command m st = (Ok m', st') ->
  exists addresses, m' = Dict.update m (directive_update command addresses).
Proof.
  rewrite run_directive_eq.
  destruct (execute resim writable (directive_command command) m st)
    as [[addresses|e] st1]; [|discriminate].
  intros [= <- _]. now exists addresses.
Qed.

Lemma run_directives_map lines m st m' st' :
  run_directives resim writable lines m st = (Ok m', st') ->
  NoDup (Dict.keys m) ->
  NoDup (Dict.keys m')
  /\ exists added, Dict.keys m' = Dict.keys m ++ added.
Proof.
  revert m st; induction lines as [|command lines IH]; intros m st H Hnd.
  - injection H as <- _. split; [exact Hnd|]. exists []. now rewrite app_nil_r.
  - destruct (is_skipped command) eqn:Hs.
    + rewrite run_directives_skip in H by assumption. exact (IH _ _ H Hnd).
    + rewrite run_directives_cons in H by assumption.
      destruct (run_directive resim writable command m st)
        as [[m1|e] st1] eqn:Hstep; [|discriminate].
      destruct (run_directive_map _ _ _ _ _ Hstep) as [addresses ->].
      destruct (IH _ _ H (DictFacts.NoDup_keys_update _ _ Hnd))
        as [Hnd' [added Hadded]].
      split; [exact Hnd'|].
      destruct (DictFacts.keys_update_prefix m
                  (directive_update command addresses)) as [added0 Hadded0].
      exists (added0 ++ added). rewrite Hadded, Hadded0.
      now rewrite <- app_assoc.
Qed.

(** *** What the loop leaves in the trace *)



(** *** No exception while the tool can be run *)




(** The exit status of each call is what matters: when the call of a
    generic directive exits, the directive does not raise. *)
Lemma run_directive_call_exits command m st :
  (Re.search_run_manifest (directive_command command)
   || exited (fst (resim (tool st) (argv_of (directive_command command) m))))%bool
  = true ->
  exists m' st', run_directive resim writable command m st = (Ok m', st').
Proof.
  intros H. rewrite run_directive_eq.
  destruct (Re.search_run_manifest (directive_command command)) eqn:Hmode.
  - rewrite execute_manifest by assumption. now eexists _, _.
  - cbn [orb] in H.
    destruct (resim (tool st) (argv_of (directive_command command) m))
      as [[rc out err|e] t'] eqn:Hrun; [|discriminate].
    destruct (Z.eq_dec rc 0) as [->|Hrc].
    + erewrite execute_exit_zero by eassumption. now eexists _, _.
    + erewrite execute_exit_nonzero by eassumption. now eexists _, _.
Qed.


End RunFacts.

(** ** Failures of the tool *)

Lemma directive_update_empty_mapping (command : string) :
  directive_update command EmptyMapping = Dict.empty.
Proof.
  unfold directive_update.
  destruct (directive_named_props command) as [named_props|]; [|reflexivity].
  destruct (declared_names named_props); reflexivity.
Qed.





(** ** The binding map over a run *)

(** The names a directive writes are among those it declares. *)
Lemma directive_update_keys (command : string) (addresses : addr_result)
  (k : string) :
  k ∈ Dict.keys (directive_update command addresses) ->
  k ∈ directive_names command.
Proof.
  unfold directive_update, directive_names.
  destruct (directive_named_props command) as [named_props|];
    [|intros H; now apply elem_of_nil in H].
  destruct (Nat.leb _ _); [|intros H; now apply elem_of_nil in H].
  intros H. apply DictFacts.elem_of_keys_update in H as [H|H];
    [now apply elem_of_nil in H|].
  unfold Dict.keys in H. apply list_elem_of_fmap in H as ([k' a] & -> & Hin).
  apply list_elem_of_In in Hin. apply in_combine_l in Hin.
  now apply list_elem_of_In.
Qed.

Lemma run_directive_untouched {T : Type} (resim : T -> list string -> proc * T)
  (writable : string -> bool) (command : string) (m : Dict.t) (st : state T)
  (m' : Dict.t) (st' : state T) (k : string) :
  run_directive resim writable command m st = (Ok m', st') ->
  k ∉ directive_names command ->
  Dict.get m' k = Dict.get m k.
Proof.
  intros Hstep Hk.
  destruct (run_directive_map _ _ _ _ _ _ _ Hstep) as [addresses ->].
  rewrite DictFacts.get_update.
  assert (Hnone : Dict.last_assigned (directive_update command addresses) k
                  = None).
  { apply DictFacts.last_assigned_None. intros Hin.
    exact (Hk (directive_update_keys _ _ _ Hin)). }
  now rewrite Hnone.
Qed.

Lemma run_directives_untouched {T : Type}
  (resim : T -> list string -> proc * T) (writable : string -> bool)
  (lines : list string) (m : Dict.t) (st : state T) (m' : Dict.t)
  (st' : state T) (k : string) :
  run_directives resim writable lines m st = (Ok m', st') ->
  k ∉ declared_by lines ->
  Dict.get m' k = Dict.get m k.
Proof.
  revert m st; induction lines as [|command lines IH]; intros m st H Hk.
  - now injection H as <- _.
  - unfold declared_by in Hk. cbn [map concat] in Hk.
    fold (declared_by lines) in Hk.
    apply not_elem_of_app in Hk as [Hhere Hrest].
    destruct (is_skipped command) eqn:Hs.
    + rewrite run_directives_skip in H by assumption. exact (IH _ _ H Hrest).
    + rewrite run_directives_cons in H by assumption.
      destruct (run_directive resim writable command m st)
        as [[m1|e] st1] eqn:Hstep; [|discriminate].
      rewrite (IH _ _ H Hrest).
      exact (run_directive_untouched _ _ _ _ _ _ _ _ Hstep Hhere).
Qed.

(** C9: along the directives of a run the binding map only grows: the
    names bound after a prefix of the directives are still bound after
    the whole sequence, in the same order and before the names added
    later, and a name that none of the later directives declares has the
    address it had; the names of the map are pairwise distinct at every
    point; and a directive changes the map by the update made from the
    names it declares and the addresses its command returned, after
    which a name written by the update has its new address, bound before
    or not, and every name the directive does not declare has the
    address it had. *)
Theorem binding_map_grows :
  forall (T : Type) (resim : T -> list string -> proc * T)
         (writable : string -> bool),
    (forall l1 l2 (st : state T) m1 st1 m2 st2,
       run_directives resim writable l1 Dict.empty st = (Ok m1, st1) ->
       run_directives resim writable (l1 ++ l2) Dict.empty st = (Ok m2, st2) ->
       NoDup (Dict.keys m1)
       /\ NoDup (Dict.keys m2)
       /\ (forall k, is_Some (Dict.get m1 k) -> is_Some (Dict.get m2 k))
       /\ (exists added, Dict.keys m2 = Dict.keys m1 ++ added)
       /\ (forall k, k ∉ declared_by l2 -> Dict.get m2 k = Dict.get m1 k))
    /\ (forall command m (st : state T) m' st',
          run_directive resim writable command m st = (Ok m', st') ->
          exists addresses,
            execute resim writable (directive_command command) m st
            = (Ok addresses, st')
            /\ m' = Dict.update m (directive_update command addresses)
            /\ (forall k,
                  k ∈ Dict.keys (directive_update command addresses) ->
                  k ∈ directive_names command)
            /\ (forall k,
                  Dict.get m' k
                  = match Dict.last_assigned
                            (directive_update command addresses) k with
                    | Some a => Some a
                    | None => Dict.get m k
                    end)
            /\ (forall k, k ∉ directive_names command ->
                          Dict.get m' k = Dict.get m k)
            /\ (forall k, k ∉ Dict.keys (directive_update command addresses) ->
                          Dict.get m' k = Dict.get m k)
            /\ (forall k a,
                  Dict.last_assigned (directive_update command addresses) k
                  = Some a ->
                  Dict.get m' k = Some a)
            /\ (forall k, is_Some (Dict.get m k) -> is_Some (Dict.get m' k))
            /\ (NoDup (Dict.keys m) -> NoDup (Dict.keys m'))).
Proof.
  intros T resim writable. split.
  - intros l1 l2 st m1 st1 m2 st2 H1 H12.
    rewrite run_directives_app, H1 in H12.
    destruct (run_directives_map _ _ _ _ _ _ _ H1 (NoDup_nil_2)) as [Hnd1 _].
    destruct (run_directives_map _ _ _ _ _ _ _ H12 Hnd1) as [Hnd2 [added Hk]].
    split; [exact Hnd1|]. split; [exact Hnd2|].
    split; [|split; [now exists added|]].
    + intros k Hin. apply DictFacts.get_is_Some. rewrite Hk.
      apply elem_of_app. left. now apply DictFacts.get_is_Some.
    + intros k Hnot. exact (run_directives_untouched _ _ _ _ _ _ _ _ H12 Hnot).
  - intros command m st m' st' Hstep.
    pose proof Hstep as Hexec. rewrite run_directive_eq in Hexec.
    destruct (execute resim writable (directive_command command) m st)
      as [[addresses|e] st1]; [|discriminate].
    injection Hexec as <- <-.
    exists addresses. split; [reflexivity|]. split; [reflexivity|].
    assert (Hget : forall k,
      Dict.get (Dict.update m (directive_update command addresses)) k
      = match Dict.last_assigned (directive_update command addresses) k with
        | Some a => Some a
        | None => Dict.get m k
        end) by (intros k; apply DictFacts.get_update).
    split; [intros k; apply directive_update_keys|].
    split; [exact Hget|].
    split; [intros k Hk; exact (run_directive_untouched _ _ _ _ _ _ _ _ Hstep Hk)|].
    split; [|split; [|split]].
    + intros k Hk. rewrite Hget.
      apply DictFacts.last_assigned_None in Hk. now rewrite Hk.
    + intros k a Hk. now rewrite Hget, Hk.
    + intros k Hin. rewrite Hget.
      destruct (Dict.last_assigned _ k); [now eexists | exact Hin].
    + apply DictFacts.NoDup_keys_update.
Qed.

Lemma binding_map_grows_witness :
  exists m2 st2,
    run_directives Sample.ledger_tool Sample.always_writable
      (["new-account -> acct pub"] ++ ["new-account -> other acct"])
      Dict.empty (Sample.start [] O) = (Ok m2, st2)
    /\ NoDup (Dict.keys m2)
    /\ is_Some (Dict.get m2 "pub")
    /\ Dict.get m2 "pub" = Some "03cd"
    /\ Dict.get m2 "acct" = Some "03cd".
Proof.
  pose (st := Sample.start (T:=nat) [] O).
  pose (run := run_directives Sample.ledger_tool Sample.always_writable).
  assert (H1 : run ["new-account -> acct pub"] Dict.empty st
               = (Ok [("acct", "02ab"); ("pub", "03cd")],
                  snd (run ["new-account -> acct pub"] Dict.empty st)))
    by (vm_compute; reflexivity).
  assert (H12 : run (["new-account -> acct pub"]
                     ++ ["new-account -> other acct"]) Dict.empty st
                = (Ok [("acct", "03cd"); ("pub", "03cd"); ("other", "02ab")],
                   snd (run (["new-account -> acct pub"]
                             ++ ["new-account -> other acct"]) Dict.empty st)))
    by (vm_compute; reflexivity).
  destruct (proj1 (binding_map_grows nat Sample.ledger_tool
                     Sample.always_writable)
              ["new-account -> acct pub"] ["new-account -> other acct"] st
              _ _ _ _ H1 H12) as (_ & Hnd & Hkeep & _ & Hsame).
  eexists _, _. split; [exact H12|]. split; [exact Hnd|].
  split; [apply Hkeep; now eexists|].
  split; [|reflexivity].
  rewrite Hsame; [reflexivity|].
  vm_compute. intros H.
  repeat (apply elem_of_cons in H as [H|H]; [discriminate|]).
  now apply elem_of_nil in H.
Defined.

(** * Further properties of the code *)

(** ** Names and addresses *)

Lemma take_hex_all_hex (s : string) :
  str_forallb Char.is_hex (Re.take_hex s) = true.
Proof.
  induction s as [|c s IH]; [reflexivity|]. simpl.
  destruct (Char.is_hex c) eqn:E; [|reflexivity]. simpl. now rewrite E.
Qed.

Lemma match_hex_after_token (p s g : string) :
  Re.match_hex_after p s = Some g -> is_hex_token g = true.
Proof.
  unfold Re.match_hex_after, is_hex_token.
  destruct (Re.match_literal_ci p s) as [rest|]; [|discriminate].
  destruct (Str.is_empty (Re.take_hex rest)) eqn:E; [discriminate|].
  intros [= <-]. now rewrite E, take_hex_all_hex.
Qed.

Lemma search_hex_after_token (p s g : string) :
  Re.search_hex_after p s = Some g -> is_hex_token g = true.
Proof.
  induction s as [|c s IH]; cbn [Re.search_hex_after].
  - destruct (Re.match_hex_after p "") eqn:E; [|discriminate].
    intros [= <-]. exact (match_hex_after_token _ _ _ E).
  - destruct (Re.match_hex_after p (String c s)) eqn:E; [|exact IH].
    intros [= <-]. exact (match_hex_after_token _ _ _ E).
Qed.

Lemma line_addresses_tokens (line : pyline) :
  Forall (fun a => is_hex_token a = true) (line_addresses line).
Proof.
  unfold line_addresses.
  induction address_extract_patterns as [|p ps IH]; [constructor|].
  cbn [flat_map]. apply Forall_app. split; [|exact IH].
  destruct (Re.search_hex_after p (py_str line)) eqn:E; [|constructor].
  constructor; [exact (search_hex_after_token _ _ _ E) | constructor].
Qed.

Lemma extract_tokens (cmd_output : list pyline) :
  Forall (fun a => is_hex_token a = true)
    (extract_output_addresses cmd_output).
Proof.
  rewrite MatchFacts.extract_eq.
  induction cmd_output as [|line lines IH]; [constructor|].
  cbn [flat_map]. apply Forall_app. split; [|exact IH].
  apply line_addresses_tokens.
Qed.

Lemma hex_lacks (c : ascii) (a : string) :
  Char.is_hex c = false -> is_hex_token a = true -> lacks c a = true.
Proof.
  intros Hc Ha. unfold is_hex_token in Ha.
  apply andb_true_iff in Ha as [_ Ha].
  apply (LabelFacts.str_forallb_impl Char.is_hex); [|exact Ha].
  intros x Hx. destruct (Char.eqb x c) eqn:E; [|reflexivity].
  apply StrFacts.char_eqb_true in E. congruence.
Qed.

(** X1: every address the matcher returns is a non-empty run of
    hexadecimal digits, whatever the output lines are, text or bytes; so
    an address holds no dollar sign, no equals sign, no space and no
    newline. *)
Theorem extracted_addresses_are_hex_tokens :
  forall (cmd_output : list pyline) (a : string),
    a ∈ extract_output_addresses cmd_output ->
    is_hex_token a = true
    /\ a <> ""
    /\ lacks Char.DOLLAR a = true
    /\ lacks "=" a = true
    /\ lacks " " a = true
    /\ lacks Char.LF a = true.
Proof.
  intros cmd_output a Hin.
  pose proof (extract_tokens cmd_output) as Hall.
  rewrite Forall_forall in Hall. specialize (Hall a Hin).
  split; [exact Hall|]. split.
  { intros ->. discriminate Hall. }
  repeat split; apply hex_lacks; (reflexivity || exact Hall).
Qed.

Lemma extracted_addresses_are_hex_tokens_witness :
  lacks Char.DOLLAR "02ab" = true.
Proof.
  apply (extracted_addresses_are_hex_tokens
           [Bytes "Account component address: 02ab"] "02ab").
  vm_compute. repeat constructor.
Defined.

Lemma opt_list_length {A} (o : option A) : (List.length (opt_list o) <= 1)%nat.
Proof. destruct o; simpl; lia. Qed.

Lemma line_addresses_length (line : pyline) :
  (List.length (line_addresses line) <= 5)%nat.
Proof.
  unfold line_addresses, address_extract_patterns. cbn [flat_map].
  rewrite !length_app. cbn [List.length].
  pose proof (opt_list_length (Re.search_hex_after "component: " (py_str line))).
  pose proof (opt_list_length (Re.search_hex_after "resource: " (py_str line))).
  pose proof (opt_list_length (Re.search_hex_after "package: " (py_str line))).
  pose proof (opt_list_length
                (Re.search_hex_after "account component address: " (py_str line))).
  pose proof (opt_list_length (Re.search_hex_after "public key: " (py_str line))).
  lia.
Qed.

(** X2: a line contributes at most one address per pattern, however
    often a label occurs on it: the address list is at most five times as
    long as the output. *)
Theorem extracted_addresses_bounded :
  forall cmd_output : list pyline,
    (List.length (extract_output_addresses cmd_output)
     <= 5 * List.length cmd_output)%nat
    /\ extract_output_addresses
         [Text "component: 1a component: 2b component: 3c"] = ["1a"].
Proof.
  intros cmd_output. split; [|reflexivity].
  rewrite MatchFacts.extract_eq.
  induction cmd_output as [|line lines IH]; [simpl; lia|].
  cbn [flat_map List.length]. rewrite length_app.
  pose proof (line_addresses_length line). lia.
Qed.

Lemma keys_of_assignments (c : list (string * string)) (k : string) :
  k ∈ Dict.keys (Dict.update Dict.empty c) -> k ∈ map fst c.
Proof.
  intros H. apply DictFacts.elem_of_keys_update in H as [H|H]; [|exact H].
  now apply elem_of_nil in H.
Qed.

Lemma fst_combine_incl (names items : list string) (k : string) :
  k ∈ map fst (combine names items) -> k ∈ names.
Proof.
  intros H. apply list_elem_of_fmap in H as [[n a] [-> H]].
  apply list_elem_of_In in H. apply in_combine_l in H.
  now apply list_elem_of_In.
Qed.

Lemma set_length_le (d : Dict.t) (k v : string) :
  (List.length (Dict.set d k v) <= S (List.length d))%nat.
Proof.
  induction d as [|[k0 v0] d IH]; simpl; [lia|].
  destruct (String.eqb k0 k); simpl; lia.
Qed.

Lemma update_length_le (c : list (string * string)) (d : Dict.t) :
  (List.length (Dict.update d c) <= List.length d + List.length c)%nat.
Proof.
  revert d; induction c as [|[k v] c IH]; intros d; [simpl; lia|].
  rewrite DictFacts.update_cons. specialize (IH (Dict.set d k v)).
  pose proof (set_length_le d k v). simpl. lia.
Qed.

(** X3: [populate_named_props] never raises, not even on the empty
    mapping that a failed execution returns: its subscript stays in
    range.  The update it returns binds declared names only, each once,
    and is empty when no address was returned. *)
Theorem populate_named_props_total :
  forall (named_props : string) (addresses : addr_result),
    exists u,
      populate_named_props named_props addresses = Ok u
      /\ NoDup (Dict.keys u)
      /\ (forall k, k ∈ Dict.keys u -> k ∈ declared_names named_props)
      /\ (List.length u <= List.length (declared_names named_props))%nat
      /\ (py_len addresses = O -> u = Dict.empty).
Proof.
  intros named_props addresses. rewrite populate_named_props_eq.
  eexists. split; [reflexivity|].
  destruct (Nat.leb_spec (List.length (declared_names named_props))
              (py_len addresses)) as [Hle|Hgt].
  - split; [apply DictFacts.NoDup_keys_update, NoDup_nil_2|].
    split.
    { intros k Hk. apply keys_of_assignments in Hk.
      exact (fst_combine_incl _ _ _ Hk). }
    split.
    { pose proof (update_length_le
                    (combine (declared_names named_props)
                       (addr_items addresses)) Dict.empty) as Hb.
      rewrite length_combine in Hb. simpl in Hb. lia. }
    intros Hzero. rewrite Hzero in Hle.
    destruct (declared_names named_props); [reflexivity | simpl in Hle; lia].
  - split; [apply NoDup_nil_2|].
    split; [intros k Hk; now apply elem_of_nil in Hk|].
    split; [simpl; lia | reflexivity].
Qed.

(** ** The substitution engine and the bindings it does not use *)

(** X4: command substitution depends only on the bindings whose
    placeholder occurs in the text: dropping all the others from the map
    leaves the result unchanged, and with none left the text comes back
    as it is. *)
Theorem perform_variable_sub_ignores_absent_bindings :
  forall (txt : string) (m : Dict.t),
    perform_variable_sub txt m
    = perform_variable_sub txt (List.filter (occurs_in txt) m)
    /\ (List.filter (occurs_in txt) m = [] -> perform_variable_sub txt m = txt).
Proof.
  intros txt m.
  assert (Heq : perform_variable_sub txt m
                = perform_variable_sub txt (List.filter (occurs_in txt) m)).
  { induction m as [|[k v] m IH]; [reflexivity|].
    cbn [List.filter perform_variable_sub]. unfold occurs_in at 1. cbn [fst].
    destruct (negb (Z.eqb (Str.find txt (placeholder k)) (-1))) eqn:E.
    - cbn [perform_variable_sub]. now rewrite E.
    - exact IH. }
  split; [exact Heq|]. intros Hnone. now rewrite Heq, Hnone.
Qed.

(** ** Well-formed names *)

Module CleanFacts.

Lemma lacks_app (c : ascii) (a b : string) :
  lacks c (a +:+ b) = (lacks c a && lacks c b)%bool.
Proof. apply LabelFacts.str_forallb_app. Qed.

Lemma lacks_snoc (c x : ascii) (s : string) :
  lacks c s = true -> Char.eqb x c = false -> lacks c (Str.snoc s x) = true.
Proof.
  intros Hs Hx. unfold Str.snoc, lacks in *.
  rewrite LabelFacts.str_forallb_app, Hs. cbn [str_forallb andb].
  now rewrite Hx.
Qed.

(** Removing a character leaves none of it. *)
Lemma remove_char_lacks (c : ascii) (s : string) :
  lacks c (Str.replace s (String c "") "") = true.
Proof.
  rewrite StrFacts.replace_nonempty by discriminate.
  induction s as [|x s IH]; [reflexivity|].
  cbn [Str.replace_from Str.startswith].
  destruct (Char.eqb x c) eqn:E; cbn [andb String.length Nat.pred].
  - exact IH.
  - cbn [lacks str_forallb]. unfold lacks in IH. now rewrite E, IH.
Qed.

Lemma normalize_one_line (x : string) : one_line (normalize x) = true.
Proof. apply remove_char_lacks. Qed.

(** The fields between single separator characters hold none. *)
Lemma split_char_lacks (c : ascii) (cur s : string) :
  lacks c cur = true ->
  Forall (fun field => lacks c field = true)
    (Str.split_from O cur s (String c "")).
Proof.
  revert cur; induction s as [|x s IH]; intros cur Hcur.
  - repeat constructor. exact Hcur.
  - cbn [Str.split_from Str.startswith].
    destruct (Char.eqb x c) eqn:E; cbn [andb String.length Nat.pred].
    + constructor; [exact Hcur | now apply IH].
    + apply IH. now apply lacks_snoc.
Qed.

(** The fields hold only characters of the text. *)
Lemma split_from_forallb (P : ascii -> bool) (skip : nat) (cur s sep : string) :
  str_forallb P cur = true ->
  str_forallb P s = true ->
  Forall (fun field => str_forallb P field = true)
    (Str.split_from skip cur s sep).
Proof.
  revert skip cur; induction s as [|x s IH]; intros skip cur Hcur Hs.
  - repeat constructor. exact Hcur.
  - simpl in Hs. apply andb_true_iff in Hs as [Hx Hs].
    cbn [Str.split_from]. destruct skip as [|k]; [|now apply IH].
    destruct (Str.startswith (String x s) sep).
    + constructor; [exact Hcur | now apply IH].
    + apply IH; [|exact Hs]. unfold Str.snoc.
      rewrite LabelFacts.str_forallb_app, Hcur. simpl. now rewrite Hx.
Qed.

Lemma declared_names_clean (named_props : string) :
  one_line named_props = true ->
  Forall (fun n => lacks " " n = true /\ one_line n = true)
    (declared_names named_props).
Proof.
  intros Hline. unfold declared_names.
  destruct (Nat.ltb 0 (String.length named_props)); [|constructor].
  apply Forall_and. split.
  - apply split_char_lacks. reflexivity.
  - apply split_from_forallb; [reflexivity | exact Hline].
Qed.

Lemma hex_token_one_line (a : string) :
  is_hex_token a = true -> one_line a = true.
Proof.
  unfold is_hex_token. intros H. apply andb_true_iff in H as [_ H].
  apply (LabelFacts.str_forallb_impl Char.is_hex); [|exact H].
  intros c Hc. destruct (Char.eqb c Char.LF) eqn:E; [|reflexivity].
  apply StrFacts.char_eqb_true in E. subst c. discriminate Hc.
Qed.

End CleanFacts.

Lemma Forall_set (P : string * string -> Prop) (d : Dict.t) (k v : string) :
  P (k, v) -> Forall P d -> Forall P (Dict.set d k v).
Proof.
  intros Hkv. induction 1 as [|[k0 v0] d H0 Hd IH]; simpl.
  - repeat constructor. exact Hkv.
  - destruct (String.eqb_spec k0 k) as [->|Hne].
    + constructor; assumption.
    + constructor; assumption.
Qed.

Lemma Forall_update (P : string * string -> Prop) (c : list (string * string))
  (d : Dict.t) :
  Forall P c -> Forall P d -> Forall P (Dict.update d c).
Proof.
  intros Hc. revert d; induction Hc as [|[k v] c Hkv Hc IH]; intros d Hd.
  - exact Hd.
  - rewrite DictFacts.update_cons. apply IH. now apply Forall_set.
Qed.

Lemma Forall_combine_bindings (names items : list string) :
  Forall (fun n => lacks " " n = true /\ one_line n = true) names ->
  Forall (fun a => is_hex_token a = true) items ->
  Forall well_formed_binding (combine names items).
Proof.
  intros Hn. revert items; induction Hn as [|n names [Hs Hl] Hn IH];
    intros items Hi; [constructor|].
  destruct Hi as [|a items Ha Hi]; [constructor|].
  simpl. constructor; [now repeat split | now apply IH].
Qed.

Lemma directive_update_well_formed (command : string) (addresses : addr_result) :
  Forall (fun a => is_hex_token a = true) (addr_items addresses) ->
  Forall well_formed_binding (directive_update command addresses).
Proof.
  intros Hi. unfold directive_update, directive_named_props.
  destruct (Str.split command "->") as [|arg0 [|arg1 args]]; try constructor.
  destruct (Nat.leb _ _); [|constructor].
  apply Forall_update; [|constructor].
  apply Forall_combine_bindings; [|exact Hi].
  apply CleanFacts.declared_names_clean, CleanFacts.normalize_one_line.
Qed.

Section ResultFacts.

Context {T : Type}.
Variable resim : T -> list string -> proc * T.
Variable writable : string -> bool.

Implicit Types (st : state T) (m : Dict.t).

(** What [execute] returns holds hex tokens only. *)
Lemma execute_returns_tokens cmd m st a st' :
  execute resim writable cmd m st = (Ok a, st') ->
  Forall (fun x => is_hex_token x = true) (addr_items a).
Proof.
  destruct (Re.search_run_manifest cmd) eqn:Hmode.
  - rewrite execute_manifest by assumption. intros [= <- _]. constructor.
  - unfold execute. rewrite Hmode.
    unfold try_except, bind, log, emit, subprocess_run,
      on_called_process_error, ret, raise, bind, log, emit.
    cbn [files tool trace].
    destruct (resim (tool st) _) as [[rc out err|e] t'].
    + destruct (Z.eqb rc 0); intros [= <- _]; [|constructor].
      apply extract_tokens.
    + destruct e; intros H; try discriminate H.
      injection H as <- _. constructor.
Qed.

End ResultFacts.

(** ** Lines of the env file *)

Lemma readlines_from_line (cur l rest : string) :
  one_line l = true ->
  Str.readlines_from cur (l +:+ String Char.LF rest)
  = (cur +:+ l +:+ String Char.LF "") :: Str.readlines_from "" rest.
Proof.
  revert cur; induction l as [|c l IH]; intros cur Hl.
  - cbn [String.append Str.readlines_from].
    rewrite StrFacts.char_eqb_refl. reflexivity.
  - unfold one_line, lacks in Hl. cbn [str_forallb] in Hl.
    apply andb_true_iff in Hl as [Hc Hl]. apply negb_true_iff in Hc.
    change (String c l +:+ String Char.LF rest)
      with (String c (l +:+ String Char.LF rest)).
    cbn [Str.readlines_from]. rewrite Hc, (IH _ Hl).
    now rewrite SplitFacts.snoc_app.
Qed.

Lemma env_lines_readlines (m : Dict.t) :
  Forall (fun kv => one_line (fst kv) = true /\ one_line (snd kv) = true) m ->
  Str.readlines (Str.concat (map env_line m)) = map env_line m.
Proof.
  unfold Str.readlines. induction 1 as [|[k v] m [Hk Hv] _ IH]; [reflexivity|].
  cbn [fst snd] in Hk, Hv. cbn [map Str.concat fold_right]. unfold env_line at 1. cbn [fst snd].
  fold (Str.concat (map env_line m)).
  replace ((k +:+ "=" +:+ v +:+ String Char.LF "") +:+ Str.concat (map env_line m))
    with ((k +:+ "=" +:+ v) +:+ String Char.LF (Str.concat (map env_line m)))
    by (now rewrite !StrFacts.app_assoc).
  rewrite readlines_from_line.
  - rewrite IH. unfold env_line. cbn [fst snd String.append].
    now rewrite !StrFacts.app_assoc.
  - unfold one_line in *. rewrite !CleanFacts.lacks_app, Hk, Hv. reflexivity.
Qed.

Section RunExtras.

Context {T : Type}.
Variable resim : T -> list string -> proc * T.
Variable writable : string -> bool.

Implicit Types (st : state T) (m : Dict.t).

Lemma run_directives_well_formed lines m st m' st' :
  run_directives resim writable lines m st = (Ok m', st') ->
  Forall well_formed_binding m ->
  Forall well_formed_binding m'.
Proof.
  revert m st; induction lines as [|command lines IH]; intros m st H Hm.
  - now injection H as <- _.
  - destruct (is_skipped command) eqn:Hs.
    + rewrite run_directives_skip in H by assumption. exact (IH _ _ H Hm).
    + rewrite run_directives_cons, run_directive_eq in H by assumption.
      destruct (execute resim writable (directive_command command) m st)
        as [[addresses|e] st1] eqn:Hexec; [|discriminate].
      apply (IH _ _ H). apply Forall_update; [|exact Hm].
      apply directive_update_well_formed.
      exact (execute_returns_tokens _ _ _ _ _ _ _ Hexec).
Qed.

End RunExtras.

(** X5: at the end of the directive loop every name of the binding map
    is free of spaces and newlines and every address is a hex token; so
    the text written to the env file reads back as exactly one line
    name=address per binding, in map order. *)
Theorem bindings_of_a_run_are_well_formed :
  forall (T : Type) (resim : T -> list string -> proc * T)
         (writable : string -> bool) (lines : list string)
         (st : state T) (m : Dict.t) (st' : state T),
    run_directives resim writable lines Dict.empty st = (Ok m, st') ->
    Forall well_formed_binding m
    /\ Str.readlines (Str.concat (map env_line m)) = map env_line m
    /\ List.length (Str.readlines (Str.concat (map env_line m)))
       = List.length m.
Proof.
  intros T resim writable lines st m st' Hrun.
  assert (Hwf : Forall well_formed_binding m)
    by (exact (run_directives_well_formed _ _ _ _ _ _ _ Hrun (Forall_nil_2 _))).
  assert (Hread : Str.readlines (Str.concat (map env_line m)) = map env_line m).
  { apply env_lines_readlines. eapply Forall_impl; [exact Hwf|].
    intros [k v] (_ & Hk & Hv). split; [exact Hk|].
    now apply CleanFacts.hex_token_one_line. }
  split; [exact Hwf|]. split; [exact Hread|].
  now rewrite Hread, length_map.
Qed.

Lemma bindings_of_a_run_are_well_formed_witness :
  Str.readlines ("acct=02ab" +:+ Sample.NL +:+ "pub=03cd" +:+ Sample.NL)
  = ["acct=02ab" +:+ Sample.NL; "pub=03cd" +:+ Sample.NL].
Proof.
  exact (proj1 (proj2
    (bindings_of_a_run_are_well_formed nat Sample.ledger_tool
       Sample.always_writable (Str.readlines Sample.account_source)
       (Sample.start [] O) [("acct", "02ab"); ("pub", "03cd")]
       (snd (run_directives Sample.ledger_tool Sample.always_writable
               (Str.readlines Sample.account_source) Dict.empty
               (Sample.start [] O)))
       ltac:(vm_compute; reflexivity)))).
Defined.

(** ** How the directive loop composes *)

(** X6: running a directive file is running its first part and then the
    rest from the bindings and the state the first part left: the
    directives of the rest see every binding made before them.  When the
    first part ends with an exception, so does the whole, in the same
    state. *)
Theorem directive_loop_composes :
  forall (T : Type) (resim : T -> list string -> proc * T)
         (writable : string -> bool) (l1 l2 : list string) (m : Dict.t)
         (st : state T),
    (forall m1 st1,
       run_directives resim writable l1 m st = (Ok m1, st1) ->
       run_directives resim writable (l1 ++ l2) m st
       = run_directives resim writable l2 m1 st1)
    /\ (forall e st1,
          run_directives resim writable l1 m st = (Raise e, st1) ->
          run_directives resim writable (l1 ++ l2) m st = (Raise e, st1)).
Proof.
  intros T resim writable l1 l2 m st. split.
  - intros m1 st1 H. now rewrite run_directives_app, H.
  - intros e st1 H. now rewrite run_directives_app, H.
Qed.

Lemma directive_loop_composes_witness :
  run_directives Sample.ledger_tool Sample.always_writable
    (["new-account -> acct"] ++ ["show $acct"]) Dict.empty (Sample.start [] O)
  = run_directives Sample.ledger_tool Sample.always_writable
      ["show $acct"] [("acct", "02ab")]
      (snd (run_directives Sample.ledger_tool Sample.always_writable
              ["new-account -> acct"] Dict.empty (Sample.start [] O))).
Proof.
  apply (proj1 (directive_loop_composes nat Sample.ledger_tool
                  Sample.always_writable ["new-account -> acct"]
                  ["show $acct"] Dict.empty (Sample.start [] O))).
  vm_compute. reflexivity.
Defined.

(** X7: comment lines and bare newlines are inert: the loop gives the
    same bindings, the same state and the same trace on a directive file
    as on the file with those lines removed. *)
Theorem skipped_lines_have_no_effect :
  forall (T : Type) (resim : T -> list string -> proc * T)
         (writable : string -> bool) (lines : list string) (m : Dict.t)
         (st : state T),
    run_directives resim writable lines m st
    = run_directives resim writable
        (List.filter (fun l => negb (is_skipped l)) lines) m st.
Proof.
  intros T resim writable lines. induction lines as [|l lines IH]; intros m st.
  - reflexivity.
  - cbn [List.filter]. destruct (is_skipped l) eqn:Hs; cbn [negb].
    + rewrite run_directives_skip by assumption. apply IH.
    + rewrite !run_directives_cons by assumption.
      destruct (run_directive resim writable l m st) as [[m'|e] st'];
        [apply IH | reflexivity].
Qed.

Section LoopExtras.

Context {T : Type}.
Variable resim : T -> list string -> proc * T.
Variable writable : string -> bool.

Implicit Types (st : state T) (m : Dict.t).

Lemma filter_not_spawn (evs : list event) :
  Forall (fun e => is_spawn e = false) evs -> List.filter is_spawn evs = [].
Proof.
  induction 1 as [|e evs He _ IH]; [reflexivity|].
  cbn [List.filter]. now rewrite He.
Qed.

(** The spawns of one execution. *)
Lemma execute_spawns cmd m st r st' :
  execute resim writable cmd m st = (r, st') ->
  exists evs,
    trace st' = trace st ++ evs
    /\ List.length (List.filter is_spawn evs)
       = if Re.search_run_manifest cmd then O else 1%nat.
Proof.
  destruct (Re.search_run_manifest cmd) eqn:Hmode.
  - rewrite execute_manifest by assumption. intros [= _ <-].
    destruct (ManifestName.manifest_mode_has_file _ Hmode) as [f Hf].
    destruct (do_run_manifest_effects writable cmd m st f Hf)
      as (st1 & Hrun & _ & _ & evs & Htrace & Hevs).
    rewrite Hrun. cbn [snd]. exists (EvRead f :: evs). split; [exact Htrace|].
    rewrite filter_not_spawn; [reflexivity|].
    constructor; [reflexivity|].
    eapply Forall_impl; [exact Hevs|]. intros e [->|[msg ->]]; reflexivity.
  - unfold execute. rewrite Hmode.
    unfold try_except, bind, log, emit, subprocess_run,
      on_called_process_error, ret, raise, bind, log, emit.
    cbn [files tool trace].
    destruct (resim (tool st) _) as [[rc out err|e] t'].
    + destruct (Z.eqb rc 0); cbn [files tool trace]; intros [= _ <-];
        cbn [trace]; rewrite <- ?app_assoc; eexists;
        (split; [reflexivity | reflexivity]).
    + destruct e; cbn [files tool trace]; intros [= _ <-];
        cbn [trace]; rewrite <- ?app_assoc; eexists;
        (split; [reflexivity | reflexivity]).
Qed.

Lemma run_directives_spawns lines m st r st' :
  run_directives resim writable lines m st = (r, st') ->
  exists evs,
    trace st' = trace st ++ evs
    /\ (List.length (List.filter is_spawn evs)
        <= List.length (List.filter spawns_tool lines))%nat
    /\ ((exists m', r = Ok m') ->
        List.length (List.filter is_spawn evs)
        = List.length (List.filter spawns_tool lines)).
Proof.
  revert m st; induction lines as [|command lines IH]; intros m st H.
  - injection H as <- <-. exists []. rewrite app_nil_r. now repeat split.
  - assert (Hst : spawns_tool command
                  = (negb (is_skipped command)
                     && negb (Re.search_run_manifest
                                (directive_command command)))%bool)
      by reflexivity.
    cbn [List.filter]. rewrite Hst. clear Hst.
    destruct (is_skipped command) eqn:Hs; cbn [negb andb].
    + rewrite run_directives_skip in H by assumption. exact (IH _ _ H).
    + rewrite run_directives_cons, run_directive_eq in H by assumption.
      destruct (execute resim writable (directive_command command) m st)
        as [[addresses|e] st1] eqn:Hexec.
      * destruct (execute_spawns _ _ _ _ _ Hexec) as (evs1 & Ht1 & Hc1).
        destruct (IH _ _ H) as (evs2 & Ht2 & Hle & Heq).
        exists (evs1 ++ evs2). rewrite Ht2, Ht1, <- app_assoc.
        split; [reflexivity|]. rewrite List.filter_app, length_app, Hc1.
        destruct (Re.search_run_manifest (directive_command command));
          cbn [negb List.length]; split; try lia;
          intros Hok; specialize (Heq Hok); lia.
      * injection H as <- <-.
        destruct (execute_spawns _ _ _ _ _ Hexec) as (evs1 & Ht1 & Hc1).
        exists evs1. split; [exact Ht1|]. rewrite Hc1.
        destruct (Re.search_run_manifest (directive_command command));
          cbn [negb List.length]; split; try lia; intros [m' [=]].
Qed.

(** The files one execution leaves alone. *)
Lemma execute_files cmd m st r st' :
  execute resim writable cmd m st = (r, st') ->
  files st' = files st
  \/ exists f content, files st' = <[f +:+ ".dat" := content]> (files st).
Proof.
  destruct (Re.search_run_manifest cmd) eqn:Hmode.
  - rewrite execute_manifest by assumption. intros [= _ <-].
    destruct (ManifestName.manifest_mode_has_file _ Hmode) as [f Hf].
    destruct (do_run_manifest_effects writable cmd m st f Hf)
      as (st1 & Hrun & _ & Hfiles & _).
    rewrite Hrun. cbn [snd].
    destruct Hfiles as [Hsame|(content & _ & Hins)]; [now left|].
    right. exists f. eexists. exact Hins.
  - unfold execute. rewrite Hmode.
    unfold try_except, bind, log, emit, subprocess_run,
      on_called_process_error, ret, raise, bind, log, emit.
    cbn [files tool trace].
    destruct (resim (tool st) _) as [[rc out err|e] t'].
    + destruct (Z.eqb rc 0); cbn [files tool trace]; intros [= _ <-];
        now left.
    + destruct e; cbn [files tool trace]; intros [= _ <-]; now left.
Qed.

End LoopExtras.

Lemma endswith_app (f suffix : string) : endswith (f +:+ suffix) suffix = true.
Proof.
  unfold endswith. rewrite StrFacts.length_app.
  replace (String.length f + String.length suffix - String.length suffix)%nat
    with (String.length f) by lia.
  rewrite SplitFacts.skipn_app, String.eqb_refl.
  apply andb_true_iff. split; [apply Nat.leb_le; lia | reflexivity].
Qed.

(** X8: the loop spawns the tool once for every directive that is
    neither skipped nor a manifest run, and never otherwise: when the
    loop ends normally the spawns it traced are as many as those
    directives, and when it is ended by an exception they are no more. *)
Theorem one_spawn_per_generic_directive :
  forall (T : Type) (resim : T -> list string -> proc * T)
         (writable : string -> bool) (lines : list string) (m : Dict.t)
         (st : state T) (r : result Dict.t) (st' : state T),
    run_directives resim writable lines m st = (r, st') ->
    exists evs,
      trace st' = trace st ++ evs
      /\ (List.length (List.filter is_spawn evs)
          <= List.length (List.filter spawns_tool lines))%nat
      /\ ((exists m', r = Ok m') ->
          List.length (List.filter is_spawn evs)
          = List.length (List.filter spawns_tool lines)).
Proof.
  intros T resim writable lines m st r st' H.
  destruct (run_directives_spawns resim writable lines m st r st' H)
    as (evs & Htrace & Hle & Heq).
  exists evs. repeat split; assumption.
Qed.

Lemma one_spawn_per_generic_directive_witness :
  exists evs,
    trace (snd (run_directives Sample.ledger_tool Sample.always_writable
                  (Str.readlines
                     ("// two accounts" +:+ Sample.NL
                      +:+ "new-account -> a" +:+ Sample.NL
                      +:+ "run now tx.rtm" +:+ Sample.NL
                      +:+ "new-account -> b" +:+ Sample.NL))
                  Dict.empty (Sample.start [] O)))
    = [] ++ evs
    /\ List.length (List.filter is_spawn evs) = 2%nat.
Proof.
  destruct (one_spawn_per_generic_directive nat Sample.ledger_tool
              Sample.always_writable
              (Str.readlines
                 ("// two accounts" +:+ Sample.NL
                  +:+ "new-account -> a" +:+ Sample.NL
                  +:+ "run now tx.rtm" +:+ Sample.NL
                  +:+ "new-account -> b" +:+ Sample.NL))
              Dict.empty (Sample.start [] O) _ _ eq_refl)
    as (evs & Htrace & _ & Heq).
  exists evs. split; [exact Htrace|].
  rewrite Heq; [reflexivity|]. eexists. vm_compute. reflexivity.
Defined.

Section FrameExtras.

Context {T : Type}.
Variable resim : T -> list string -> proc * T.
Variable writable : string -> bool.

Implicit Types (st : state T) (m : Dict.t).

Lemma run_directives_files lines m st r st' :
  run_directives resim writable lines m st = (r, st') ->
  forall p,
    (endswith p ".dat" = false -> files st' !! p = files st !! p)
    /\ (is_Some (files st !! p) -> is_Some (files st' !! p)).
Proof.
  revert m st; induction lines as [|command lines IH]; intros m st H p.
  - injection H as _ <-. now split.
  - destruct (is_skipped command) eqn:Hs.
    + rewrite run_directives_skip in H by assumption. exact (IH _ _ H p).
    + rewrite run_directives_cons, run_directive_eq in H by assumption.
      destruct (execute resim writable (directive_command command) m st)
        as [[addresses|e] st1] eqn:Hexec.
      * destruct (IH _ _ H p) as [Hkeep Hsome].
        destruct (execute_files _ _ _ _ _ _ _ Hexec)
          as [Hsame|(f & content & Hins)].
        { rewrite Hsame in *. now split. }
        rewrite Hins in *. split.
        { intros Hp. rewrite (Hkeep Hp). apply lookup_insert_ne.
          intros <-. rewrite endswith_app in Hp. discriminate. }
        { intros Hin. apply Hsome.
          destruct (decide (f +:+ ".dat" = p)) as [->|Hne].
          - rewrite lookup_insert_eq. now eexists.
          - now rewrite lookup_insert_ne. }
      * injection H as _ <-.
        destruct (execute_files _ _ _ _ _ _ _ Hexec)
          as [Hsame|(f & content & Hins)].
        { rewrite Hsame. now split. }
        rewrite Hins. split.
        { intros Hp. apply lookup_insert_ne.
          intros <-. rewrite endswith_app in Hp. discriminate. }
        { intros Hin.
          destruct (decide (f +:+ ".dat" = p)) as [->|Hne].
          - rewrite lookup_insert_eq. now eexists.
          - now rewrite lookup_insert_ne. }
Qed.

Lemma run_directive_manifest command m st :
  Re.search_run_manifest (directive_command command) = true ->
  run_directive resim writable command m st
  = (Ok m, snd (do_run_manifest writable (directive_command command) m st)).
Proof.
  intros Hmode. rewrite run_directive_eq, execute_manifest by assumption.
  now rewrite directive_update_empty_mapping.
Qed.

End FrameExtras.

(** X9: the directive loop writes no file other than the [.dat] copies
    of manifests and removes none: a file whose name does not end in
    [.dat] (the directive file, a manifest, the env file) has the same
    content after the loop, however the loop ends, and every file that
    existed still exists. *)
Theorem directive_loop_writes_only_dat_files :
  forall (T : Type) (resim : T -> list string -> proc * T)
         (writable : string -> bool) (lines : list string) (m : Dict.t)
         (st : state T) (r : result Dict.t) (st' : state T) (p : string),
    run_directives resim writable lines m st = (r, st') ->
    (endswith p ".dat" = false -> files st' !! p = files st !! p)
    /\ (is_Some (files st !! p) -> is_Some (files st' !! p)).
Proof.
  intros T resim writable lines m st r st' p H.
  destruct (run_directives_files resim writable lines m st r st' H p)
    as [Hkeep Hsome].
  split; [exact Hkeep | exact Hsome].
Qed.

Lemma directive_loop_writes_only_dat_files_witness :
  files
    (snd (run_directives Sample.ledger_tool Sample.always_writable
            ["run now tx.rtm"; "new-account -> acct"] Dict.empty
            (Sample.start [("tx.rtm", "CALL $acct")] O)))
  !! "tx.rtm"
  = Some "CALL $acct".
Proof.
  pose (run := run_directives Sample.ledger_tool Sample.always_writable
                 ["run now tx.rtm"; "new-account -> acct"] Dict.empty
                 (Sample.start [("tx.rtm", "CALL $acct")] O)).
  destruct (directive_loop_writes_only_dat_files nat Sample.ledger_tool
              Sample.always_writable
              ["run now tx.rtm"; "new-account -> acct"] Dict.empty
              (Sample.start [("tx.rtm", "CALL $acct")] O)
              (fst run) (snd run) "tx.rtm" (surjective_pairing run))
    as [Hkeep _].
  exact (eq_trans (Hkeep eq_refl) eq_refl).
Defined.

(** ** The binding writer *)




(** X10: a manifest-run directive never binds a name, even when it
    declares names: the binding map after it is the map before it, and
    the directive never raises. *)
Theorem manifest_directive_binds_nothing :
  forall (T : Type) (resim : T -> list string -> proc * T)
         (writable : string -> bool) (command : string) (m : Dict.t)
         (st : state T),
    Re.search_run_manifest (directive_command command) = true ->
    exists st',
      run_directive resim writable command m st = (Ok m, st')
      /\ tool st' = tool st
      /\ forall rest,
           is_skipped command = false ->
           run_directives resim writable (command :: rest) m st
           = run_directives resim writable rest m st'.
Proof.
  intros T resim writable command m st Hmode.
  pose proof (run_directive_manifest resim writable command m st Hmode) as Hstep.
  destruct (ManifestName.manifest_mode_has_file _ Hmode) as [f Hf].
  destruct (do_run_manifest_effects writable (directive_command command) m st
              f Hf) as (st1 & Hrun & Htool & _).
  rewrite Hrun in Hstep. cbn [snd] in Hstep.
  exists st1. split; [exact Hstep|]. split; [exact Htool|].
  intros rest Hs. rewrite run_directives_cons by assumption.
  now rewrite Hstep.
Qed.

Lemma manifest_directive_binds_nothing_witness :
  exists st',
    run_directive Sample.ledger_tool Sample.always_writable
      "run now tx.rtm -> acct pub" [("old", "01")]
      (Sample.start [("tx.rtm", "CALL $old")] O)
    = (Ok [("old", "01")], st').
Proof.
  destruct (manifest_directive_binds_nothing nat Sample.ledger_tool
              Sample.always_writable "run now tx.rtm -> acct pub"
              [("old", "01")] (Sample.start [("tx.rtm", "CALL $old")] O)
              eq_refl) as (st' & Hstep & _).
  now exists st'.
Defined.

(** ** Copies of a manifest *)

Lemma map_untouched (m : Dict.t) (lines : list string) :
  Forall (fun line =>
            Forall (fun kv => Str.find line (placeholder (fst kv)) = -1) m)
    lines ->
  map (fun line => substitute_line line m) lines = lines.
Proof.
  induction 1 as [|line lines Hline _ IH]; [reflexivity|].
  cbn [map]. now rewrite IH, substitute_line_untouched.
Qed.

(** X11: the [.dat] copy of a manifest none of whose lines, as read,
    holds a placeholder of a bound name is the manifest with its newlines
    translated: every CR LF and every lone CR of the manifest is an LF in
    the copy, which holds no CR, and the other characters are kept; so is
    every copy made while nothing is bound.  The copy is the manifest
    character for character when the manifest holds no CR. *)
Theorem manifest_without_placeholders_copied_verbatim :
  forall (T : Type) (writable : string -> bool) (cmd : string) (m : Dict.t)
         (st : state T) (f content : string),
    Re.search_word_rtm true cmd = Some f ->
    files st !! f = Some content ->
    content <> "" ->
    writable (f +:+ ".dat") = true ->
    (Forall (fun line =>
               Forall (fun kv => Str.find line (placeholder (fst kv)) = -1) m)
       (Str.text_lines content) ->
     files (snd (do_run_manifest writable cmd m st)) !! (f +:+ ".dat")
     = Some (Str.universal_newlines content))
    /\ files (snd (do_run_manifest writable cmd Dict.empty st)) !! (f +:+ ".dat")
       = Some (Str.universal_newlines content)
    /\ lacks Char.CR (Str.universal_newlines content) = true
    /\ (lacks Char.CR content = true ->
        Str.universal_newlines content = content
        /\ files (snd (do_run_manifest writable cmd Dict.empty st))
             !! (f +:+ ".dat")
           = Some content).
Proof.
  intros T writable cmd m st f content Hf Hfile Hne Hw.
  assert (Hcopy : forall names,
    Forall (fun line =>
              Forall (fun kv => Str.find line (placeholder (fst kv)) = -1) names)
      (Str.text_lines content) ->
    files (snd (do_run_manifest writable cmd names st)) !! (f +:+ ".dat")
    = Some (Str.universal_newlines content)).
  { intros names Hnone.
    rewrite (do_run_manifest_written writable cmd names st f content Hf Hfile
               (text_lines_not_nil _ Hne) Hw).
    cbn [snd files]. rewrite lookup_insert_eq.
    now rewrite (map_untouched _ _ Hnone), text_lines_concat. }
  assert (Hempty :
    files (snd (do_run_manifest writable cmd Dict.empty st)) !! (f +:+ ".dat")
    = Some (Str.universal_newlines content)).
  { apply Hcopy. apply Forall_forall. intros line _. constructor. }
  split; [apply Hcopy|]. split; [exact Hempty|].
  split; [apply universal_newlines_from_lacks_cr|].
  intros Hcr. pose proof (universal_newlines_id _ Hcr) as Hid.
  split; [exact Hid|]. now rewrite Hempty, Hid.
Qed.

Lemma manifest_without_placeholders_copied_verbatim_witness :
  files
    (snd (do_run_manifest Sample.always_writable "run now tx.rtm"
            [("acct", "02ab")]
            (Sample.start
               [("tx.rtm", "CALL $other" +:+ Sample.CRLF +:+ "DROP"
                           +:+ Sample.CR +:+ "END")] tt)))
  !! "tx.rtm.dat"
  = Some ("CALL $other" +:+ Sample.NL +:+ "DROP" +:+ Sample.NL +:+ "END").
Proof.
  etransitivity.
  - apply (proj1 (manifest_without_placeholders_copied_verbatim
           unit Sample.always_writable "run now tx.rtm" [("acct", "02ab")]
           (Sample.start
              [("tx.rtm", "CALL $other" +:+ Sample.CRLF +:+ "DROP"
                          +:+ Sample.CR +:+ "END")] tt)
           "tx.rtm"
           ("CALL $other" +:+ Sample.CRLF +:+ "DROP" +:+ Sample.CR +:+ "END")
           eq_refl eq_refl ltac:(discriminate) eq_refl)).
    vm_compute. repeat constructor.
  - reflexivity.
Defined.

(** ** The pre-flight checks and the starter file *)

Section PreflightFacts.

Context {T : Type}.
Variable resim : T -> list string -> proc * T.
Variable shell : T -> string -> proc * T.
Variable writable : string -> bool.

Implicit Types (st : state T) (args : parsed_args).

Lemma check_resim_exited st rc out err t' :
  shell (tool st) version_probe = (Exited rc out err, t') ->
  check_resim_is_executable shell st
  = (Ok tt, mkState (files st) t' (trace st ++ probe_events rc)).
Proof.
  intros H. unfold check_resim_is_executable, probe_events.
  destruct (Z.eqb_spec rc 0) as [->|Hrc].
  - erewrite try_ok; [reflexivity|].
    erewrite bind_ok; [reflexivity|].
    now apply (subprocess_run_exit_zero _ st _ out err t').
  - erewrite try_raise.
    2:{ erewrite bind_raise; [reflexivity|].
        now apply (subprocess_run_exit_nonzero _ st _ rc out err t'). }
    cbv beta iota. rewrite emit_eq. cbn [files tool trace].
    apply Z.eqb_neq in Hrc. now rewrite <- app_assoc.
Qed.

Lemma check_resim_not_started st e t' :
  shell (tool st) version_probe = (NotStarted e, t') ->
  is_called_process_error e = false ->
  check_resim_is_executable shell st
  = (Raise e,
     mkState (files st) t' (trace st ++ [EvSpawn (shell_argv version_probe)])).
Proof.
  intros H He. unfold check_resim_is_executable.
  erewrite try_raise.
  2:{ erewrite bind_raise; [reflexivity|].
      now apply (subprocess_run_not_started _ st _ e t'). }
  destruct e; try discriminate He; reflexivity.
Qed.

Lemma validate_args_generate args st :
  generate args = true -> validate_args args st = (Ok tt, st).
Proof. intros H. unfold validate_args. now rewrite H. Qed.

Lemma validate_args_readable args st content :
  generate args = false ->
  files st !! input_file args = Some content ->
  validate_args args st
  = (Ok tt, mkState (files st) (tool st)
              (trace st ++ [EvRead (input_file args)])).
Proof.
  intros Hg Hfile. unfold validate_args. rewrite Hg.
  erewrite try_ok; [reflexivity|].
  now rewrite (bind_ok _ _ _ _ _ (open_readlines_some st _ content Hfile)).
Qed.

Lemma validate_args_missing args st :
  generate args = false ->
  files st !! input_file args = None ->
  validate_args args st
  = (Ok tt, mkState (files st) (tool st)
              (trace st ++ [EvRead (input_file args);
                            unreadable_input (input_file args)])).
Proof.
  intros Hg Hfile. unfold validate_args. rewrite Hg.
  rewrite (try_raise _ _ _ _ _
             (bind_raise _ _ _ _ _ (open_readlines_none st _ Hfile))).
  rewrite emit_eq. cbn [files tool trace]. now rewrite <- app_assoc.
Qed.

Lemma rev_after_probe args st rc out err t' :
  shell (tool st) version_probe = (Exited rc out err, t') ->
  rev resim shell writable args st
  = bind (validate_args args)
      (fun _ =>
         if generate args then generate_revup_filesample writable
         else process_inputfile resim writable (input_file args))
      (mkState (files st) t' (trace st ++ probe_events rc)).
Proof.
  intros H. unfold rev.
  now rewrite (bind_ok _ _ _ _ _ (check_resim_exited st rc out err t' H)).
Qed.

Lemma generate_written st content :
  files st !! TEMPLATE_FILE = Some content ->
  writable BOOTSTRAP_FILE_NAME = true ->
  generate_revup_filesample writable st
  = (Ok tt,
     mkState
       (<[BOOTSTRAP_FILE_NAME := Str.universal_newlines content]> (files st))
       (tool st)
       (trace st ++ [EvRead TEMPLATE_FILE; EvWrite BOOTSTRAP_FILE_NAME;
                     generated_record])).
Proof.
  intros Hfile Hw. unfold generate_revup_filesample.
  rewrite (bind_ok _ _ _ _ _ (open_readlines_some st _ content Hfile)).
  erewrite try_ok; [reflexivity|].
  rewrite (bind_ok _ _ _ _ _ (open_writelines_ok writable _ _ _ Hw)).
  rewrite emit_eq. cbn [files tool trace].
  rewrite text_lines_concat. now rewrite <- !app_assoc.
Qed.

Lemma generate_denied st content :
  files st !! TEMPLATE_FILE = Some content ->
  writable BOOTSTRAP_FILE_NAME = false ->
  generate_revup_filesample writable st
  = (Ok tt,
     mkState (files st) (tool st)
       (trace st ++ [EvRead TEMPLATE_FILE; EvWrite BOOTSTRAP_FILE_NAME;
                     EvLog ERROR ("failed to generate bootstrap file due to "
                                  +:+ exn_str (permission_denied
                                                 BOOTSTRAP_FILE_NAME))])).
Proof.
  intros Hfile Hw. unfold generate_revup_filesample.
  rewrite (bind_ok _ _ _ _ _ (open_readlines_some st _ content Hfile)).
  rewrite (try_raise _ _ _ _ _
             (bind_raise _ _ _ _ _ (open_writelines_denied writable _ _ _ Hw))).
  rewrite log_eq. cbn [files tool trace]. now rewrite <- !app_assoc.
Qed.

Lemma generate_no_template st :
  files st !! TEMPLATE_FILE = None ->
  generate_revup_filesample writable st
  = (Raise (no_such_file TEMPLATE_FILE),
     mkState (files st) (tool st) (trace st ++ [EvRead TEMPLATE_FILE])).
Proof.
  intros Hfile. unfold generate_revup_filesample.
  now rewrite (bind_raise _ _ _ _ _ (open_readlines_none st _ Hfile)).
Qed.

End PreflightFacts.

(** X12: [validate_args] never raises and never stops the run: it leaves
    the files and the tool as they are, and for a directive file that
    cannot be opened it only logs that the file does not exist or is not
    readable.  When a starter file is asked for it does nothing. *)
Theorem validate_args_reports_and_goes_on :
  forall (T : Type) (args : parsed_args) (st : state T),
    exists st',
      validate_args args st = (Ok tt, st')
      /\ files st' = files st
      /\ tool st' = tool st
      /\ (generate args = true -> st' = st)
      /\ (generate args = false ->
          files st !! input_file args = None ->
          trace st' = trace st ++ [EvRead (input_file args);
                                   unreadable_input (input_file args)])
      /\ (generate args = false ->
          is_Some (files st !! input_file args) ->
          trace st' = trace st ++ [EvRead (input_file args)]).
Proof.
  intros T args st. destruct (generate args) eqn:Hg.
  - exists st. rewrite validate_args_generate by assumption.
    split; [reflexivity|]. split; [reflexivity|]. split; [reflexivity|].
    split; [reflexivity|]. split; discriminate.
  - destruct (files st !! input_file args) as [content|] eqn:Hfile.
    + eexists. rewrite (validate_args_readable args st content Hg Hfile).
      cbn [files tool trace].
      split; [reflexivity|]. split; [reflexivity|]. split; [reflexivity|].
      split; [discriminate|]. split; [discriminate | reflexivity].
    + eexists. rewrite (validate_args_missing args st Hg Hfile).
      cbn [files tool trace].
      split; [reflexivity|]. split; [reflexivity|]. split; [reflexivity|].
      split; [discriminate|]. split; [reflexivity|].
      intros _ [x Hx]. discriminate Hx.
Qed.

(** X13: when the directive file cannot be opened, the run is not
    stopped by the validation: after the version probe and the logged
    complaint, [process_inputfile] opens the file again and its
    exception ends the run.  No directive is run and no file is
    written. *)
Theorem rev_missing_input_file_aborts :
  forall (T : Type) (resim : T -> list string -> proc * T)
         (shell : T -> string -> proc * T) (writable : string -> bool)
         (args : parsed_args) (st : state T) rc out err t',
    shell (tool st) version_probe = (Exited rc out err, t') ->
    generate args = false ->
    files st !! input_file args = None ->
    rev resim shell writable args st
    = (Raise (no_such_file (input_file args)),
       mkState (files st) t'
         (trace st ++ probe_events rc
          ++ [EvRead (input_file args); unreadable_input (input_file args);
              EvRead (input_file args)])).
Proof.
  intros T resim shell writable args st rc out err t' Hprobe Hg Hfile.
  rewrite (rev_after_probe resim shell writable args st rc out err t' Hprobe).
  rewrite Hg.
  erewrite bind_ok by (now apply validate_args_missing).
  unfold process_inputfile.
  erewrite bind_raise by (now apply open_readlines_none).
  cbn [files tool trace]. now rewrite <- !app_assoc.
Qed.

Lemma rev_missing_input_file_aborts_witness :
  fst (rev Sample.ledger_tool shell_with_tool Sample.always_writable
         (mkArgs "revup.rev" ".env" false) (Sample.start [] O))
  = Raise (no_such_file "revup.rev").
Proof.
  rewrite (rev_missing_input_file_aborts nat Sample.ledger_tool
             shell_with_tool Sample.always_writable
             (mkArgs "revup.rev" ".env" false) (Sample.start [] O)
             0 "resim 1.0" "" O eq_refl eq_refl eq_refl).
  reflexivity.
Defined.

(** X14: a version probe that exits with a non-zero status, as when the
    tool is not on the path, is logged and nothing more: the run goes on
    to the directive file exactly as after a successful probe, with the
    complaint in the log. *)
Theorem failed_probe_does_not_stop_the_run :
  forall (T : Type) (resim : T -> list string -> proc * T)
         (shell : T -> string -> proc * T) (writable : string -> bool)
         (args : parsed_args) (st : state T) rc out err t' content,
    shell (tool st) version_probe = (Exited rc out err, t') ->
    generate args = false ->
    files st !! input_file args = Some content ->
    rev resim shell writable args st
    = process_inputfile resim writable (input_file args)
        (mkState (files st) t'
           (trace st ++ probe_events rc ++ [EvRead (input_file args)]))
    /\ (rc <> 0 ->
        probe_events rc = [EvSpawn (shell_argv version_probe); probe_failure])
    /\ (rc = 0 -> probe_events rc = [EvSpawn (shell_argv version_probe)]).
Proof.
  intros T resim shell writable args st rc out err t' content Hprobe Hg Hfile.
  split.
  - rewrite (rev_after_probe resim shell writable args st rc out err t' Hprobe).
    rewrite Hg.
    erewrite bind_ok
      by (apply (validate_args_readable args _ content Hg); exact Hfile).
    cbn [files tool trace]. now rewrite <- app_assoc.
  - unfold probe_events. split.
    + intros Hrc. apply Z.eqb_neq in Hrc. now rewrite Hrc.
    + intros ->. reflexivity.
Qed.

Lemma failed_probe_does_not_stop_the_run_witness :
  exists st',
    rev Sample.ledger_tool shell_without_tool Sample.always_writable
      (mkArgs "revup.rev" ".env" false)
      (Sample.start [("revup.rev", Sample.account_source)] O)
    = (Ok tt, st')
    /\ files st' !! ENV_FILE
       = Some ("acct=02ab" +:+ Sample.NL +:+ "pub=03cd" +:+ Sample.NL).
Proof.
  eexists.
  rewrite (proj1 (failed_probe_does_not_stop_the_run nat Sample.ledger_tool
                    shell_without_tool Sample.always_writable
                    (mkArgs "revup.rev" ".env" false)
                    (Sample.start [("revup.rev", Sample.account_source)] O)
                    127 "" "/bin/sh: 1: resim: not found" O
                    Sample.account_source eq_refl eq_refl eq_refl)).
  split; vm_compute; reflexivity.
Defined.

(** X15: asked for a starter file, the run writes the template, as read
    in text mode, into the starter file, replacing what that file held,
    and logs it: every CR LF and every lone CR of the template is an LF
    in the starter file, which holds no CR, and the other characters are
    kept, so that a template without CR is copied character for
    character; the directive file is not processed, the tool is not run
    and nothing else is written. *)
Theorem generate_copies_template :
  forall (T : Type) (resim : T -> list string -> proc * T)
         (shell : T -> string -> proc * T) (writable : string -> bool)
         (args : parsed_args) (st : state T) rc out err t' content,
    shell (tool st) version_probe = (Exited rc out err, t') ->
    generate args = true ->
    files st !! TEMPLATE_FILE = Some content ->
    writable BOOTSTRAP_FILE_NAME = true ->
    rev resim shell writable args st
    = (Ok tt,
       mkState
         (<[BOOTSTRAP_FILE_NAME := Str.universal_newlines content]> (files st))
         t'
         (trace st ++ probe_events rc
          ++ [EvRead TEMPLATE_FILE; EvWrite BOOTSTRAP_FILE_NAME;
              generated_record]))
    /\ lacks Char.CR (Str.universal_newlines content) = true
    /\ (lacks Char.CR content = true ->
        files (snd (rev resim shell writable args st)) !! BOOTSTRAP_FILE_NAME
        = Some content)
    /\ (forall resim',
          rev resim' shell writable args st = rev resim shell writable args st)
    /\ (forall p, p <> BOOTSTRAP_FILE_NAME ->
                  files (snd (rev resim shell writable args st)) !! p
                  = files st !! p).
Proof.
  intros T resim shell writable args st rc out err t' content
    Hprobe Hg Hfile Hw.
  assert (Hrev : forall r,
    rev r shell writable args st
    = (Ok tt,
       mkState
         (<[BOOTSTRAP_FILE_NAME := Str.universal_newlines content]> (files st))
         t'
         (trace st ++ probe_events rc
          ++ [EvRead TEMPLATE_FILE; EvWrite BOOTSTRAP_FILE_NAME;
              generated_record]))).
  { intros r.
    rewrite (rev_after_probe r shell writable args st rc out err t' Hprobe).
    rewrite Hg. erewrite bind_ok by (now apply validate_args_generate).
    erewrite generate_written by (cbn [files]; eassumption).
    cbn [files tool trace]. now rewrite <- app_assoc. }
  split; [apply Hrev|].
  split; [apply universal_newlines_from_lacks_cr|]. split.
  { intros Hcr. rewrite Hrev. cbn [snd files].
    rewrite lookup_insert_eq. now rewrite (universal_newlines_id _ Hcr). }
  split.
  - intros r. now rewrite !Hrev.
  - intros p Hp. rewrite Hrev. cbn [snd files].
    now apply lookup_insert_ne.
Qed.

Lemma generate_copies_template_witness :
  files
    (snd (rev Sample.ledger_tool shell_with_tool Sample.always_writable
            (mkArgs "revup.rev" ".env" true)
            (Sample.start
               [("template/bootstrap.r",
                 "// directives" +:+ Sample.CRLF +:+ "new-account -> acct");
                ("revup.rev", "old")] O)))
  !! BOOTSTRAP_FILE_NAME
  = Some ("// directives" +:+ Sample.NL +:+ "new-account -> acct").
Proof.
  rewrite (proj1 (generate_copies_template nat Sample.ledger_tool
                    shell_with_tool Sample.always_writable
                    (mkArgs "revup.rev" ".env" true)
                    (Sample.start
                       [("template/bootstrap.r",
                         "// directives" +:+ Sample.CRLF
                         +:+ "new-account -> acct");
                        ("revup.rev", "old")] O)
                    0 "resim 1.0" "" O
                    ("// directives" +:+ Sample.CRLF +:+ "new-account -> acct")
                    eq_refl eq_refl eq_refl eq_refl)).
  cbn [snd files]. rewrite lookup_insert_eq. reflexivity.
Defined.

(** X16: asked for a starter file without a template to copy, the run
    ends with the exception of the failed open, which no handler
    catches; with a template but a starter file that cannot be written,
    the failure is logged and the run ends normally.  In both cases no
    file changes. *)
Theorem generate_failures :
  forall (T : Type) (resim : T -> list string -> proc * T)
         (shell : T -> string -> proc * T) (writable : string -> bool)
         (args : parsed_args) (st : state T) rc out err t',
    shell (tool st) version_probe = (Exited rc out err, t') ->
    generate args = true ->
    (files st !! TEMPLATE_FILE = None ->
     rev resim shell writable args st
     = (Raise (no_such_file TEMPLATE_FILE),
        mkState (files st) t'
          (trace st ++ probe_events rc ++ [EvRead TEMPLATE_FILE])))
    /\ (forall content,
          files st !! TEMPLATE_FILE = Some content ->
          writable BOOTSTRAP_FILE_NAME = false ->
          exists st',
            rev resim shell writable args st = (Ok tt, st')
            /\ files st' = files st
            /\ EvLog ERROR ("failed to generate bootstrap file due to "
                            +:+ exn_str (permission_denied BOOTSTRAP_FILE_NAME))
               ∈ trace st').
Proof.
  intros T resim shell writable args st rc out err t' Hprobe Hg.
  rewrite (rev_after_probe resim shell writable args st rc out err t' Hprobe).
  rewrite Hg. erewrite bind_ok by (now apply validate_args_generate).
  split.
  - intros Hfile.
    erewrite generate_no_template by (cbn [files]; assumption).
    cbn [files tool trace]. now rewrite <- app_assoc.
  - intros content Hfile Hw.
    erewrite generate_denied by (cbn [files]; eassumption).
    eexists. split; [reflexivity|]. cbn [files tool trace].
    split; [reflexivity|].
    apply elem_of_app. right. repeat constructor.
Qed.

Lemma generate_failures_witness :
  fst (rev Sample.ledger_tool shell_with_tool Sample.always_writable
         (mkArgs "revup.rev" ".env" true) (Sample.start [] O))
  = Raise (no_such_file TEMPLATE_FILE).
Proof.
  rewrite (proj1 (generate_failures nat Sample.ledger_tool shell_with_tool
                    Sample.always_writable (mkArgs "revup.rev" ".env" true)
                    (Sample.start [] O) 0 "resim 1.0" "" O eq_refl eq_refl)
             eq_refl).
  reflexivity.
Defined.

(** X17: the version probe catches the exception of a non-zero exit
    only: when the shell itself cannot be started, its exception ends
    the run before any file is opened. *)
Theorem probe_spawn_failure_aborts :
  forall (T : Type) (resim : T -> list string -> proc * T)
         (shell : T -> string -> proc * T) (writable : string -> bool)
         (args : parsed_args) (st : state T) e t',
    shell (tool st) version_probe = (NotStarted e, t') ->
    is_called_process_error e = false ->
    rev resim shell writable args st
    = (Raise e,
       mkState (files st) t'
         (trace st ++ [EvSpawn (shell_argv version_probe)])).
Proof.
  intros T resim shell writable args st e t' Hprobe He. unfold rev.
  now rewrite (bind_raise _ _ _ _ _
                 (check_resim_not_started shell st e t' Hprobe He)).
Qed.

Lemma probe_spawn_failure_aborts_witness :
  rev Sample.ledger_tool
    (fun (t : nat) (_ : string) =>
       (NotStarted (no_such_file "/bin/sh"), t))
    Sample.always_writable (mkArgs "revup.rev" ".env" false)
    (Sample.start [("revup.rev", Sample.account_source)] O)
  = (Raise (no_such_file "/bin/sh"),
     mkState (Sample.disk [("revup.rev", Sample.account_source)]) O
       [EvSpawn (shell_argv version_probe)]).
Proof.
  exact (probe_spawn_failure_aborts nat Sample.ledger_tool
           (fun (t : nat) (_ : string) =>
              (NotStarted (no_such_file "/bin/sh"), t))
           Sample.always_writable (mkArgs "revup.rev" ".env" false)
           (Sample.start [("revup.rev", Sample.account_source)] O)
           (no_such_file "/bin/sh") O eq_refl eq_refl).
Defined.

(** ** Lines of whitespace *)

Module BlankFacts.

Lemma space_not_dash (c : ascii) :
  Char.is_space c = true -> Char.eqb c "-" = false.
Proof.
  destruct c as [[] [] [] [] [] [] [] []]; intros H;
    try discriminate H; reflexivity.
Qed.

Lemma space_not_slash (c : ascii) :
  Char.is_space c = true ->
  Char.eqb c "/" = false /\ Char.eqb c Char.BACKSLASH = false.
Proof.
  destruct c as [[] [] [] [] [] [] [] []]; intros H;
    try discriminate H; split; reflexivity.
Qed.

Lemma lstrip_spaces (w : string) :
  str_forallb Char.is_space w = true -> Str.lstrip w = "".
Proof.
  induction w as [|c w IH]; [reflexivity|]. simpl.
  intros H. apply andb_true_iff in H as [Hc Hw]. now rewrite Hc, IH.
Qed.

Lemma no_delimiter_in_spaces (w : string) :
  str_forallb Char.is_space w = true -> Str.index_of w "->" = None.
Proof.
  induction w as [|c w IH]; [reflexivity|]. simpl.
  intros H. apply andb_true_iff in H as [Hc Hw].
  cbn [Str.index_of Str.startswith].
  rewrite (space_not_dash _ Hc). cbn [andb]. now rewrite IH.
Qed.

Lemma not_skipped_spaces (w : string) :
  str_forallb Char.is_space w = true ->
  w <> String Char.LF "" ->
  is_skipped w = false.
Proof.
  intros Hw Hne. unfold is_skipped.
  destruct (String.eqb_spec w (String Char.LF "")) as [->|_]; [congruence|].
  destruct w as [|c w]; [reflexivity|]. simpl in Hw.
  apply andb_true_iff in Hw as [Hc _].
  destruct (space_not_slash _ Hc) as [Hs Hb].
  cbn [Str.startswith orb]. now rewrite Hs, Hb.
Qed.

Lemma find_in_empty (k : string) : Str.find "" (placeholder k) = -1.
Proof. reflexivity. Qed.

Lemma perform_variable_sub_empty (m : Dict.t) : perform_variable_sub "" m = "".
Proof.
  apply perform_variable_sub_no_match. apply Forall_forall.
  intros [k v] _. apply find_in_empty.
Qed.

End BlankFacts.

(** X18: a line made of whitespace only is skipped only when it is the
    bare newline: any other such line is a directive with an empty
    command and no names, for which the tool is run with one empty
    argument. *)
Theorem whitespace_line_runs_the_tool :
  forall (w : string) (m : Dict.t),
    str_forallb Char.is_space w = true ->
    w <> String Char.LF "" ->
    is_skipped w = false
    /\ directive_command w = ""
    /\ directive_named_props w = None
    /\ Re.search_run_manifest (directive_command w) = false
    /\ spawns_tool w = true
    /\ argv_of (directive_command w) m = [RESIM_COMMAND; ""].
Proof.
  intros w m Hw Hne.
  assert (Hskip : is_skipped w = false)
    by (now apply BlankFacts.not_skipped_spaces).
  assert (Hsplit : Str.split w "->" = [w]).
  { apply SplitFacts.split_absent, StrFacts.find_absent.
    now apply BlankFacts.no_delimiter_in_spaces. }
  assert (Hcmd : directive_command w = "").
  { unfold directive_command, normalize, Str.strip. rewrite Hsplit.
    cbn [nth]. now rewrite BlankFacts.lstrip_spaces. }
  split; [exact Hskip|]. split; [exact Hcmd|].
  split; [unfold directive_named_props; now rewrite Hsplit|].
  split; [now rewrite Hcmd|].
  split; [unfold spawns_tool; now rewrite Hskip, Hcmd|].
  rewrite Hcmd. unfold argv_of.
  now rewrite BlankFacts.perform_variable_sub_empty.
Qed.

Lemma whitespace_line_runs_the_tool_witness :
  argv_of (directive_command ("  " +:+ Sample.NL)) [("a", "1")]
  = [RESIM_COMMAND; ""].
Proof.
  apply (whitespace_line_runs_the_tool ("  " +:+ Sample.NL) [("a", "1")]).
  - reflexivity.
  - discriminate.
Defined.

(** ** What a generic directive leaves in the log *)

(** X19: for a command that is no manifest run the invoker logs the
    command as written, placeholders included, then spawns the tool with
    the substituted command cut at single spaces, and what follows is
    decided by how that call of the tool ends.  Exit status zero: the
    addresses extracted from the captured output are returned and
    nothing more is logged.  Another exit status: the failure record
    with the error stream of this call is logged and the empty mapping
    is returned.  A spawn that raises something else than
    [CalledProcessError]: nothing more is logged and the exception leaves
    the invoker.  In each case the tool is left in the state the call
    left it in, and the invoker itself opens no file: the files of the
    state, which the tool is not given, are the same. *)
Theorem generic_command_trace :
  forall (T : Type) (resim : T -> list string -> proc * T)
         (writable : string -> bool) (cmd : string) (m : Dict.t)
         (st : state T),
    Re.search_run_manifest cmd = false ->
    let started :=
      trace st ++ [EvLog INFO (">>> " +:+ cmd); EvSpawn (argv_of cmd m)] in
    (forall out err t',
       resim (tool st) (argv_of cmd m) = (Exited 0 out err, t') ->
       execute resim writable cmd m st
       = (Ok (AddrList
                (extract_output_addresses (map Bytes (Str.splitlines out)))),
          mkState (files st) t' started))
    /\ (forall rc out err t',
          resim (tool st) (argv_of cmd m) = (Exited rc out err, t') ->
          rc <> 0 ->
          execute resim writable cmd m st
          = (Ok EmptyMapping,
             mkState (files st) t' (started ++ [failure_record cmd err])))
    /\ (forall rc stderr t',
          resim (tool st) (argv_of cmd m)
          = (NotStarted (CalledProcessError rc stderr), t') ->
          execute resim writable cmd m st
          = (Ok EmptyMapping,
             mkState (files st) t' (started ++ [failure_record cmd stderr])))
    /\ (forall e t',
          resim (tool st) (argv_of cmd m) = (NotStarted e, t') ->
          is_called_process_error e = false ->
          execute resim writable cmd m st
          = (Raise e, mkState (files st) t' started))
    /\ files (snd (execute resim writable cmd m st)) = files st
    /\ tool (snd (execute resim writable cmd m st))
       = snd (resim (tool st) (argv_of cmd m)).
Proof.
  intros T resim writable cmd m st Hmode started. subst started.
  split; [|split; [|split; [|split]]].
  - intros out err t' Hrun.
    exact (execute_exit_zero resim writable cmd m st out err t' Hmode Hrun).
  - intros rc out err t' Hrun Hrc.
    rewrite (execute_exit_nonzero resim writable cmd m st rc out err t'
               Hmode Hrun Hrc).
    now rewrite <- app_assoc.
  - intros rc stderr t' Hrun. unfold execute. rewrite Hmode.
    unfold try_except, bind, log, emit, subprocess_run,
      on_called_process_error, ret, raise, bind, log, emit.
    cbn [files tool trace]. fold (argv_of cmd m). rewrite Hrun.
    cbn [files tool trace]. unfold failure_record.
    now rewrite <- !app_assoc.
  - intros e t' Hrun He.
    exact (execute_not_started resim writable cmd m st e t' Hmode Hrun He).
  - unfold execute. rewrite Hmode.
    unfold try_except, bind, log, emit, subprocess_run,
      on_called_process_error, ret, raise, bind, log, emit.
    cbn [files tool trace]. fold (argv_of cmd m).
    destruct (resim (tool st) (argv_of cmd m)) as [[rc out err|e] t'].
    + destruct (Z.eqb rc 0); cbn [snd files tool trace]; now split.
    + destruct e; cbn [snd files tool trace]; now split.
Qed.

Lemma generic_command_trace_witness :
  execute Sample.ledger_tool Sample.always_writable
    "show $acct" [("acct", "02ab")] (Sample.start [] O)
  = (Ok EmptyMapping,
     mkState ∅ 1%nat
       [EvLog INFO ">>> show $acct"; EvSpawn ["resim"; "show"; "02ab"];
        failure_record "show $acct" "error: not found"]).
Proof.
  destruct (generic_command_trace nat Sample.ledger_tool
              Sample.always_writable "show $acct" [("acct", "02ab")]
              (Sample.start [] O) eq_refl) as (_ & Hfail & _).
  exact (Hfail 1 "" "error: not found" 1%nat eq_refl ltac:(discriminate)).
Defined.

(** ** Running a manifest twice *)

Lemma dat_name_differs (f : string) : f +:+ ".dat" <> f.
Proof.
  intros H. apply (f_equal String.length) in H.
  rewrite StrFacts.length_app in H. simpl in H. lia.
Qed.

(** X20: materializing a manifest is idempotent: the manifest itself is
    never changed, so a second run of the same manifest command under
    the same bindings leaves the files exactly as the first run left
    them. *)
Theorem manifest_run_is_idempotent :
  forall (T : Type) (writable : string -> bool) (cmd : string) (m : Dict.t)
         (st : state T),
    let once := snd (do_run_manifest writable cmd m st) in
    let twice := snd (do_run_manifest writable cmd m once) in
    files twice = files once
    /\ (forall f, Re.search_word_rtm true cmd = Some f ->
                  files once !! f = files st !! f).
Proof.
  intros T writable cmd m st once twice. subst once twice.
  destruct (Re.search_word_rtm true cmd) as [f|] eqn:Hf.
  2:{ rewrite !do_run_manifest_no_name by assumption. split; [reflexivity|].
      intros f [=]. }
  destruct (files st !! f) as [content|] eqn:Hfile.
  - destruct (Str.text_lines content) as [|l ls] eqn:Hlines.
    + rewrite (do_run_manifest_empty writable cmd m st f content Hf Hfile Hlines).
      cbn [snd].
      match goal with
      | |- context [do_run_manifest writable cmd m ?s] =>
          rewrite (do_run_manifest_empty writable cmd m s f content
                     Hf Hfile Hlines)
      end.
      split; [reflexivity|]. now intros f' [= <-].
    + assert (Hne : Str.text_lines content <> [])
        by (rewrite Hlines; discriminate).
      destruct (writable (f +:+ ".dat")) eqn:Hw.
      * rewrite (do_run_manifest_written writable cmd m st f content
                   Hf Hfile Hne Hw). cbn [snd].
        assert (Hkeep : <[f +:+ ".dat" :=
                            Str.concat (map (fun line => substitute_line line m)
                                          (Str.text_lines content))]> (files st)
                        !! f = Some content).
        { rewrite lookup_insert_ne by apply dat_name_differs. exact Hfile. }
        match goal with
        | |- context [do_run_manifest writable cmd m ?s] =>
            rewrite (do_run_manifest_written writable cmd m s f content
                       Hf Hkeep Hne Hw)
        end. cbn [snd files].
        split; [apply insert_insert_eq|].
        intros f' [= <-]. now rewrite Hkeep.
      * rewrite (do_run_manifest_unwritable writable cmd m st f content
                   Hf Hfile Hne Hw). cbn [snd].
        match goal with
        | |- context [do_run_manifest writable cmd m ?s] =>
            rewrite (do_run_manifest_unwritable writable cmd m s f content
                       Hf Hfile Hne Hw)
        end.
        split; [reflexivity|]. now intros f' [= <-].
  - rewrite (do_run_manifest_missing writable cmd m st f Hf Hfile). cbn [snd].
    match goal with
    | |- context [do_run_manifest writable cmd m ?s] =>
        rewrite (do_run_manifest_missing writable cmd m s f Hf Hfile)
    end.
    split; [reflexivity|]. now intros f' [= <-].
Qed.

Lemma manifest_run_is_idempotent_witness :
  files
    (snd (do_run_manifest Sample.always_writable "run now tx.rtm"
            [("acct", "02ab")]
            (Sample.start [("tx.rtm", "CALL $acct")] tt)))
  !! "tx.rtm"
  = Some "CALL $acct".
Proof.
  rewrite (proj2 (manifest_run_is_idempotent unit Sample.always_writable
                    "run now tx.rtm" [("acct", "02ab")]
                    (Sample.start [("tx.rtm", "CALL $acct")] tt))
             "tx.rtm" eq_refl).
  reflexivity.
Defined.

Lemma populate_named_props_total_witness :
  exists u,
    populate_named_props "acct pub" EmptyMapping = Ok u /\ u = Dict.empty.
Proof.
  destruct (populate_named_props_total "acct pub" EmptyMapping)
    as (u & Hu & _ & _ & _ & Hempty).
  exists u. split; [exact Hu | exact (Hempty eq_refl)].
Defined.

Lemma perform_variable_sub_ignores_absent_bindings_witness :
  perform_variable_sub "show account" [("acct", "02ab"); ("pub", "03cd")]
  = "show account".
Proof.
  apply (proj2 (perform_variable_sub_ignores_absent_bindings
                  "show account" [("acct", "02ab"); ("pub", "03cd")])).
  reflexivity.
Defined.

Lemma validate_args_reports_and_goes_on_witness :
  exists st',
    validate_args (mkArgs "missing.rev" ".env" false) (Sample.start [] tt)
    = (Ok tt, st')
    /\ trace st'
       = [] ++ [EvRead "missing.rev"; unreadable_input "missing.rev"].
Proof.
  destruct (validate_args_reports_and_goes_on unit
              (mkArgs "missing.rev" ".env" false) (Sample.start [] tt))
    as (st' & Hrun & _ & _ & _ & Hmissing & _).
  exists st'. split; [exact Hrun | exact (Hmissing eq_refl eq_refl)].
Defined.
